(** * preview-automation-go: deploy and cleanup of per-pull-request previews

    A shallow embedding of [main.go], [deploy.go] and [cleanup.go].

    The Go code is a sequence of calls to the cloud provider (S3,
    CloudFront, Route53), to GitHub, to the file system and to standard
    output.  Each such call is an event of a small free monad [Prog]; the
    answers come from an [Oracle], a function of the history of the run, so
    that a statement about every oracle is a statement about every
    execution.  A Go [error] is its message; [fmt.Errorf("...: %w", err)] is
    string concatenation.  The case mapping of Unicode, which
    [strings.ToLower] applies to a string with a byte outside ASCII, rests
    on tables of the Go library: it is a parameter of the program. *)

From Stdlib Require Import ZArith List Ascii String Lia.
From stdpp Require Import base tactics option list strings pretty gmap.

Local Open Scope string_scope.
Local Open Scope Z_scope.

(** ** Results and Go strings *)

(** A Go result [(v, err)]: either the value or the message of the error. *)
Inductive result (A : Type) : Type :=
| Ok (a : A)
| Err (msg : string).
Arguments Ok {A} a.
Arguments Err {A} msg.

Definition is_ok {A} (r : result A) : bool :=
  match r with Ok _ => true | Err _ => false end.

(** The line feed that [fmt.Println] appends. *)
Definition nl : string := String (ascii_of_nat 10) "".

(** [%d] of a Go [int]: decimal digits with a leading minus sign. *)
Definition fmt_d (n : Z) : string := pretty n.

(** ** main.go: configuration and identity *)

Record Config : Type := {
  PRNumber : Z;
  AppName : string;
  Region : string;
  BaseDomain : string;
  CertificateARN : string;
  SourcePath : string;
  Action : string;
  RepoOwner : string;
  RepoName : string
}.

(** [githubClient] is [None] for Go's nil client (no GITHUB_TOKEN); the AWS
    clients are the oracle of a run and carry no data of their own. *)
Record PreviewManager : Type := {
  cfg : Config;
  githubClient : option string;
  bucketName : string;
  fullDomain : string;
  subdomain : string
}.

(** main.go, lines 79-102: the client and the identity of the environment. *)
Definition newPreviewManager (c : Config) (token : string) : PreviewManager :=
  let githubClient := if decide (token = "") then None else Some token in
  let bucketName := "pr-" +:+ fmt_d (PRNumber c) +:+ "-" +:+ AppName c in
  {| cfg := c;
     githubClient := githubClient;
     subdomain := bucketName;
     bucketName := bucketName;
     fullDomain := bucketName +:+ "." +:+ BaseDomain c |}.

(** ** main.go: content types *)

(** [os.IsPathSeparator] on the Unix targets the tool is built for. *)
Definition IsPathSeparator (c : ascii) : bool := bool_decide (c = "/"%char).

(** [filepath.Ext]: the loop runs from the last byte towards the first and
    stops at a path separator; [suffix] is [path[i+1:]]. *)
Fixpoint Ext_loop (rev_prefix : list ascii) (suffix : list ascii) : string :=
  match rev_prefix with
  | [] => ""
  | c :: rest =>
      if IsPathSeparator c then ""
      else if bool_decide (c = "."%char) then string_of_list_ascii (c :: suffix)
      else Ext_loop rest (c :: suffix)
  end.

Definition filepath_Ext (path : string) : string :=
  Ext_loop (rev (list_ascii_of_string path)) [].

(** The map literal of [getContentType]. *)
Definition contentTypes : gmap string string :=
  list_to_map
    [ (".html", "text/html");
      (".css", "text/css");
      (".js", "application/javascript");
      (".json", "application/json");
      (".png", "image/png");
      (".jpg", "image/jpeg");
      (".jpeg", "image/jpeg");
      (".gif", "image/gif");
      (".svg", "image/svg+xml");
      (".ico", "image/x-icon");
      (".xml", "application/xml");
      (".pdf", "application/pdf");
      (".txt", "text/plain") ].

(** ** Provider data

    The SDK structures, with the fields the tool reads or writes.  A Go
    slice is a list (a nil slice is the empty list: the code only ranges
    over slices and takes their length); a pointer to a structure that the
    code tests against nil is an [option]. *)

(** [Quantity] and [Items] of the CloudFront list structures. *)
Record Counted (A : Type) : Type := {
  Quantity : Z;
  Items : list A
}.
Arguments Quantity {A} _.
Arguments Items {A} _.

Record OriginAccessControlSummary : Type := {
  oac_Id : string;
  oac_Name : string
}.

Inductive OriginAccessControlSigningProtocols : Type :=
| OriginAccessControlSigningProtocolsSigv4.

Inductive OriginAccessControlSigningBehaviors : Type :=
| OriginAccessControlSigningBehaviorsNever
| OriginAccessControlSigningBehaviorsAlways
| OriginAccessControlSigningBehaviorsNoOverride.

Inductive OriginAccessControlOriginTypes : Type :=
| OriginAccessControlOriginTypesS3
| OriginAccessControlOriginTypesMediastore.

Record OriginAccessControlConfig : Type := {
  oacc_Name : string;
  oacc_Description : string;
  SigningProtocol : OriginAccessControlSigningProtocols;
  SigningBehavior : OriginAccessControlSigningBehaviors;
  OriginAccessControlOriginType : OriginAccessControlOriginTypes
}.

Record Origin : Type := {
  origin_Id : string;
  origin_DomainName : string;
  S3OriginConfig_OriginAccessIdentity : string;
  OriginAccessControlId : string
}.

Inductive ViewerProtocolPolicy : Type :=
| ViewerProtocolPolicyAllowAll
| ViewerProtocolPolicyHttpsOnly
| ViewerProtocolPolicyRedirectToHttps.

Inductive Method : Type := MethodGet | MethodHead.

Inductive ItemSelection : Type :=
| ItemSelectionNone | ItemSelectionWhitelist | ItemSelectionAll.

Record AllowedMethods : Type := {
  am_Quantity : Z;
  am_Items : list Method;
  CachedMethods : Counted Method
}.

Record DefaultCacheBehavior : Type := {
  TargetOriginId : string;
  dcb_ViewerProtocolPolicy : ViewerProtocolPolicy;
  dcb_AllowedMethods : AllowedMethods;
  ForwardedValues_QueryString : bool;
  ForwardedValues_Cookies_Forward : ItemSelection;
  MinTTL : Z;
  DefaultTTL : Z;
  MaxTTL : Z;
  Compress : bool;
  TrustedSigners_Enabled : bool;
  TrustedSigners_Quantity : Z
}.

Record CustomErrorResponse : Type := {
  ErrorCode : Z;
  ResponsePagePath : string;
  ResponseCode : string;
  ErrorCachingMinTTL : Z
}.

Inductive SSLSupportMethod : Type := SSLSupportMethodSniOnly | SSLSupportMethodVip.

Inductive MinimumProtocolVersion : Type :=
| MinimumProtocolVersionTLSv122021
| MinimumProtocolVersionTLSv132025.

Inductive ViewerCertificate : Type :=
| ViewerCertificateACM (ACMCertificateArn : string) (ssl : SSLSupportMethod)
    (minimum : MinimumProtocolVersion)
| ViewerCertificateDefault (CloudFrontDefaultCertificate : bool).

Record DistributionConfig : Type := {
  CallerReference : string;
  Comment : string;
  Enabled : bool;
  Aliases : Counted string;
  DefaultRootObject : string;
  Origins : Counted Origin;
  dc_DefaultCacheBehavior : DefaultCacheBehavior;
  CustomErrorResponses : Counted CustomErrorResponse;
  dc_ViewerCertificate : ViewerCertificate
}.

(** [distConfig.DistributionConfig.Enabled = aws.Bool(b)]. *)
Definition set_Enabled (b : bool) (c : DistributionConfig) : DistributionConfig :=
  {| CallerReference := CallerReference c;
     Comment := Comment c;
     Enabled := b;
     Aliases := Aliases c;
     DefaultRootObject := DefaultRootObject c;
     Origins := Origins c;
     dc_DefaultCacheBehavior := dc_DefaultCacheBehavior c;
     CustomErrorResponses := CustomErrorResponses c;
     dc_ViewerCertificate := dc_ViewerCertificate c |}.

Record GetDistributionConfigOutput : Type := {
  gdc_DistributionConfig : DistributionConfig;
  gdc_ETag : option string
}.

Record DistributionSummary : Type := {
  ds_Id : string;
  ds_Aliases : option (Counted string)
}.

Record Distribution : Type := {
  d_Id : string;
  d_ARN : string;
  d_DomainName : string
}.

Record HostedZone : Type := {
  hz_Id : string;
  hz_Name : string
}.

Inductive RRType : Type := RRTypeA | RRTypeAaaa | RRTypeCname | RRTypeTxt.

Inductive ChangeAction : Type :=
| ChangeActionCreate | ChangeActionDelete | ChangeActionUpsert.

Record ResourceRecordSet : Type := {
  rr_Name : string;
  rr_Type : RRType;
  rr_TTL : option Z;
  rr_ResourceRecords : list string
}.

Record ListObjectsV2Output : Type := {
  Contents : list string;
  IsTruncated : option bool;
  NextContinuationToken : option string
}.

(** One invocation of the callback of [filepath.Walk]. *)
Record WalkEntry : Type := {
  we_path : string;
  we_IsDir : bool;
  we_err : option string
}.

(** ** Calls and programs *)

(** What the tool asks of its environment.  [Stdout] is a write of [fmt];
    [CFWaitDistributionDeployed] is [DistributionDeployedWaiter.Wait] with
    its ceiling in seconds; [FilepathWalk] gives the callback invocations of
    one walk in order. *)
Inductive Call : Type :=
| Stdout (text : string)
| TimeNowUnix
| FilepathWalk (root : string)
| FilepathRel (basepath targpath : string)
| OsReadFile (name : string)
| S3HeadBucket (Bucket : string)
| S3CreateBucket (Bucket : string) (LocationConstraint : option string)
| S3PutObject (Bucket Key Body ContentType : string)
| S3PutBucketPolicy (Bucket Policy : string)
| S3ListObjectsV2 (Bucket : string) (ContinuationToken : option string)
| S3DeleteObjects (Bucket : string) (Objects : list string)
| S3DeleteBucket (Bucket : string)
| CFListOriginAccessControls
| CFCreateOriginAccessControl (config : OriginAccessControlConfig)
| CFListDistributions
| CFCreateDistribution (config : DistributionConfig)
| CFGetDistribution (Id : string)
| CFGetDistributionConfig (Id : string)
| CFUpdateDistribution (Id : string) (config : DistributionConfig)
    (IfMatch : option string)
| CFWaitDistributionDeployed (Id : string) (maxWaitSeconds : Z)
| CFDeleteDistribution (Id : string) (IfMatch : option string)
| CFCreateInvalidation (DistributionId CallerReference : string)
    (Paths : Counted string)
| R53ListHostedZonesByName (DNSName : string)
| R53ListResourceRecordSets (HostedZoneId StartRecordName : string)
    (StartRecordType : RRType) (MaxItems : Z)
| R53ChangeResourceRecordSets (HostedZoneId : string) (action : ChangeAction)
    (recordSet : ResourceRecordSet)
| GitHubCreateComment (owner repo : string) (number : Z) (body : string).

Definition Resp (c : Call) : Type :=
  match c with
  | Stdout _ => unit
  | TimeNowUnix => Z
  | FilepathWalk _ => list WalkEntry
  | FilepathRel _ _ => result string
  | OsReadFile _ => result string
  | S3HeadBucket _ => result unit
  | S3CreateBucket _ _ => result unit
  | S3PutObject _ _ _ _ => result unit
  | S3PutBucketPolicy _ _ => result unit
  | S3ListObjectsV2 _ _ => result ListObjectsV2Output
  | S3DeleteObjects _ _ => result unit
  | S3DeleteBucket _ => result unit
  | CFListOriginAccessControls => result (option (list OriginAccessControlSummary))
  | CFCreateOriginAccessControl _ => result OriginAccessControlSummary
  | CFListDistributions => result (option (list DistributionSummary))
  | CFCreateDistribution _ => result Distribution
  | CFGetDistribution _ => result Distribution
  | CFGetDistributionConfig _ => result GetDistributionConfigOutput
  | CFUpdateDistribution _ _ _ => result unit
  | CFWaitDistributionDeployed _ _ => result unit
  | CFDeleteDistribution _ _ => result unit
  | CFCreateInvalidation _ _ _ => result unit
  | R53ListHostedZonesByName _ => result (list HostedZone)
  | R53ListResourceRecordSets _ _ _ _ => result (list ResourceRecordSet)
  | R53ChangeResourceRecordSets _ _ _ => result unit
  | GitHubCreateComment _ _ _ _ => result unit
  end.

Inductive Prog (R : Type) : Type :=
| Ret (r : R)
| Vis (c : Call) (k : Resp c -> Prog R).
Arguments Ret {R} r.
Arguments Vis {R} c k.

Fixpoint bind {A B : Type} (p : Prog A) (f : A -> Prog B) : Prog B :=
  match p with
  | Ret a => f a
  | Vis c k => Vis c (fun r => bind (k r) f)
  end.

Definition call (c : Call) : Prog (Resp c) := Vis c Ret.

Declare Scope prog_scope.
Delimit Scope prog_scope with prog.
Bind Scope prog_scope with Prog.
Notation "x ← y ; z" := (bind y (fun x => z))
  (at level 20, y at level 100, z at level 200, only parsing) : prog_scope.
Notation "x ;; z" := (bind x (fun _ => z))
  (at level 100, z at level 200, only parsing, right associativity) : prog_scope.

Definition Println (s : string) : Prog unit := call (Stdout (s +:+ nl)).
Definition Printf (s : string) : Prog unit := call (Stdout s).

(** ** Executions *)

Record Event : Type := Ev {
  ev_call : Call;
  ev_resp : Resp ev_call
}.

(** The environment: the answer to a call, given everything that happened
    before it in the run. *)
Definition Oracle : Type := list Event -> forall c : Call, Resp c.

(** [run o h p]: the events of [p] after the history [h], and its value. *)
Fixpoint run {R : Type} (o : Oracle) (h : list Event) (p : Prog R)
  : list Event * R :=
  match p with
  | Ret r => ([], r)
  | Vis c k =>
      let r := o h c in
      let '(t, v) := run o (h ++ [Ev c r]) (k r) in
      (Ev c r :: t, v)
  end.

Definition calls (t : list Event) : list Call := map ev_call t.

Definition is_Stdout (c : Call) : bool :=
  match c with Stdout _ => true | _ => false end.

(** The events of a trace that are not writes to standard output. *)
Definition api (t : list Event) : list Event :=
  List.filter (fun e => negb (is_Stdout (ev_call e))) t.

Local Open Scope prog_scope.

(** ** deploy.go *)

Definition createS3Bucket (pm : PreviewManager) : Prog (result unit) :=
  Printf ("Creating S3 bucket: " +:+ bucketName pm +:+ nl);;
  head ← call (S3HeadBucket (bucketName pm));
  match head with
  | Ok _ =>
      Println "  ✓ Bucket already exists";;
      Ret (Ok tt)
  | Err _ =>
      let LocationConstraint :=
        if decide (Region (cfg pm) = "us-east-1") then None
        else Some (Region (cfg pm)) in
      created ← call (S3CreateBucket (bucketName pm) LocationConstraint);
      match created with
      | Err err => Ret (Err ("failed to create bucket: " +:+ err))
      | Ok _ =>
          Println "  ✓ Bucket created";;
          Ret (Ok tt)
      end
  end.

(** ** main.go: the content type of a file *)

Section Program.

(** [strings.Map(unicode.ToLower, s)]: what [strings.ToLower] returns for a
    string with a byte outside ASCII.  The case tables of Unicode behind it
    belong to the Go library and not to the repository, so the mapping is a
    parameter of the program. *)
Variable strings_Map_ToLower : string -> string.

#[local] Set Default Proof Using "Type".

(** [c < utf8.RuneSelf] *)
Definition is_ascii (c : ascii) : bool := Nat.ltb (nat_of_ascii c) 128.

(** ['A' <= c && c <= 'Z'] *)
Definition is_upper (c : ascii) : bool :=
  (Nat.leb 65 (nat_of_ascii c) && Nat.leb (nat_of_ascii c) 90)%bool.

(** The scan that opens [strings.ToLower]: is every byte ASCII, and is one
    of them a capital letter. *)
Fixpoint isASCII (s : string) : bool :=
  match s with
  | EmptyString => true
  | String c s' => (is_ascii c && isASCII s')%bool
  end.

Fixpoint hasUpper (s : string) : bool :=
  match s with
  | EmptyString => false
  | String c s' => (is_upper c || hasUpper s')%bool
  end.

(** [c += 'a' - 'A'] for a capital letter; every other byte stays. *)
Definition lower_byte (c : ascii) : ascii :=
  if is_upper c then ascii_of_nat (nat_of_ascii c + 32) else c.

Fixpoint lower_bytes (s : string) : string :=
  match s with
  | EmptyString => EmptyString
  | String c s' => String (lower_byte c) (lower_bytes s')
  end.

(** [strings.ToLower]: a string of ASCII bytes is returned as it is when it
    has no capital letter and with its capital letters moved to a-z when it
    has one; any other string goes through the Unicode mapping. *)
Definition strings_ToLower (s : string) : string :=
  if isASCII s then
    if hasUpper s then lower_bytes s else s
  else strings_Map_ToLower s.

Definition getContentType (filename : string) : string :=
  let ext := strings_ToLower (filepath_Ext filename) in
  match contentTypes !! ext with
  | Some ct => ct
  | None => "application/octet-stream"
  end.

(** [filepath.ToSlash]: the separator is already the slash. *)
Definition filepath_ToSlash (path : string) : string := path.

(** A Go [int] after an addition: 64 bits, two's complement. *)
Definition wrap_int (n : Z) : Z := (n + 2 ^ 63) mod 2 ^ 64 - 2 ^ 63.

(** The callback that [syncFilesToS3] hands to [filepath.Walk]: the error
    it returns, or whether it counted a file. *)
Definition syncFilesToS3_visit (pm : PreviewManager) (e : WalkEntry)
  : Prog (result bool) :=
  match we_err e with
  | Some err => Ret (Err err)
  | None =>
      if we_IsDir e then Ret (Ok false)
      else
        rel ← call (FilepathRel (SourcePath (cfg pm)) (we_path e));
        match rel with
        | Err err => Ret (Err err)
        | Ok relPath =>
            let s3Key := filepath_ToSlash relPath in
            let contentType := getContentType (we_path e) in
            data ← call (OsReadFile (we_path e));
            match data with
            | Err err =>
                Ret (Err ("failed to read file " +:+ we_path e +:+ ": " +:+ err))
            | Ok data =>
                put ← call (S3PutObject (bucketName pm) s3Key data contentType);
                match put with
                | Err err =>
                    Ret (Err ("failed to upload " +:+ s3Key +:+ ": " +:+ err))
                | Ok _ => Ret (Ok true)
                end
            end
        end
  end.

(** [filepath.Walk] stops at the first error of its callback. *)
Fixpoint syncFilesToS3_walk (pm : PreviewManager) (entries : list WalkEntry)
    (fileCount : Z) : Prog (result Z) :=
  match entries with
  | [] => Ret (Ok fileCount)
  | e :: rest =>
      visited ← syncFilesToS3_visit pm e;
      match visited with
      | Err err => Ret (Err err)
      | Ok true => syncFilesToS3_walk pm rest (wrap_int (fileCount + 1))
      | Ok false => syncFilesToS3_walk pm rest fileCount
      end
  end.

Definition syncFilesToS3 (pm : PreviewManager) : Prog (result unit) :=
  Printf ("Syncing files from " +:+ SourcePath (cfg pm) +:+ " to S3..." +:+ nl);;
  entries ← call (FilepathWalk (SourcePath (cfg pm)));
  walked ← syncFilesToS3_walk pm entries 0;
  match walked with
  | Err err => Ret (Err err)
  | Ok fileCount =>
      Printf ("  ✓ Uploaded " +:+ fmt_d fileCount +:+ " files" +:+ nl);;
      Ret (Ok tt)
  end.

(** The first entity of the list with the wanted name. *)
Fixpoint getOrCreateOAC_scan (oacName : string)
    (items : list OriginAccessControlSummary) : option OriginAccessControlSummary :=
  match items with
  | [] => None
  | oac :: rest =>
      if decide (oac_Name oac = oacName) then Some oac
      else getOrCreateOAC_scan oacName rest
  end.

Definition getOrCreateOAC (pm : PreviewManager) : Prog (result string) :=
  Println "Managing Origin Access Control...";;
  let oacName := "OAC-" +:+ bucketName pm in
  listResult ← call CFListOriginAccessControls;
  match listResult with
  | Err err => Ret (Err ("failed to list OACs: " +:+ err))
  | Ok OriginAccessControlList =>
      let found :=
        match OriginAccessControlList with
        | Some items => getOrCreateOAC_scan oacName items
        | None => None
        end in
      match found with
      | Some oac =>
          Printf ("  ✓ Using existing OAC: " +:+ oac_Id oac +:+ nl);;
          Ret (Ok (oac_Id oac))
      | None =>
          Println "  Creating new Origin Access Control...";;
          createResult ← call (CFCreateOriginAccessControl
            {| oacc_Name := oacName;
               oacc_Description :=
                 "OAC for PR #" +:+ fmt_d (PRNumber (cfg pm))
                 +:+ " preview environment";
               SigningProtocol := OriginAccessControlSigningProtocolsSigv4;
               SigningBehavior := OriginAccessControlSigningBehaviorsAlways;
               OriginAccessControlOriginType := OriginAccessControlOriginTypesS3 |});
          match createResult with
          | Err err => Ret (Err ("failed to create OAC: " +:+ err))
          | Ok created =>
              let oacID := oac_Id created in
              Printf ("  ✓ OAC created: " +:+ oacID +:+ nl);;
              Ret (Ok oacID)
          end
      end
  end.

(** The raw string of the bucket policy, line by line: each line after its
    tabs.  In the fixed text an apostrophe stands for the double quote. *)
Definition tab : string := String (ascii_of_nat 9) "".

Fixpoint tabs (n : nat) : string :=
  match n with O => "" | S n' => tab +:+ tabs n' end.

Fixpoint q (s : string) : string :=
  match s with
  | EmptyString => EmptyString
  | String c s' =>
      String (if bool_decide (c = "'"%char) then ascii_of_nat 34 else c) (q s')
  end.

Fixpoint raw_lines (lines : list (nat * string)) : string :=
  match lines with
  | [] => ""
  | (n, l) :: rest =>
      match rest with
      | [] => tabs n +:+ l
      | _ :: _ => tabs n +:+ l +:+ nl +:+ raw_lines rest
      end
  end.

Definition bucketPolicy (bucket distributionARN : string) : string :=
  raw_lines
    [ (0, q "{");
      (2, q "'Version': '2012-10-17',");
      (2, q "'Statement': [");
      (3, q "{");
      (4, q "'Sid': 'AllowCloudFrontServicePrincipal',");
      (4, q "'Effect': 'Allow',");
      (4, q "'Principal': {");
      (5, q "'Service': 'cloudfront.amazonaws.com'");
      (4, q "},");
      (4, q "'Action': 's3:GetObject',");
      (4, q "'Resource': 'arn:aws:s3:::" +:+ bucket +:+ q "/*',");
      (4, q "'Condition': {");
      (5, q "'StringEquals': {");
      (6, q "'AWS:SourceArn': '" +:+ distributionARN +:+ q "'");
      (5, q "}");
      (4, q "}");
      (3, q "}");
      (2, q "]");
      (1, q "}") ]%nat.

Definition setBucketPolicyForOAC (pm : PreviewManager) (distributionID : string)
  : Prog (result unit) :=
  Println "Setting bucket policy for CloudFront OAC access...";;
  dist ← call (CFGetDistribution distributionID);
  match dist with
  | Err err => Ret (Err ("failed to get distribution: " +:+ err))
  | Ok dist =>
      let distributionARN := d_ARN dist in
      let policy := bucketPolicy (bucketName pm) distributionARN in
      put ← call (S3PutBucketPolicy (bucketName pm) policy);
      match put with
      | Err err => Ret (Err ("failed to set bucket policy: " +:+ err))
      | Ok _ =>
          Println "  ✓ Bucket policy configured for CloudFront access";;
          Ret (Ok tt)
      end
  end.

Fixpoint findCloudFrontDistribution_aliases (fullDomain : string)
    (aliases : list string) : bool :=
  match aliases with
  | [] => false
  | alias :: rest =>
      if decide (alias = fullDomain) then true
      else findCloudFrontDistribution_aliases fullDomain rest
  end.

(** The two nested loops: the id of the first distribution that has the
    alias, the empty string when there is none. *)
Fixpoint findCloudFrontDistribution_scan (fullDomain : string)
    (items : list DistributionSummary) : string :=
  match items with
  | [] => ""
  | dist :: rest =>
      let hit :=
        match ds_Aliases dist with
        | Some aliases => findCloudFrontDistribution_aliases fullDomain (Items aliases)
        | None => false
        end in
      if hit then ds_Id dist else findCloudFrontDistribution_scan fullDomain rest
  end.

Definition findCloudFrontDistribution (pm : PreviewManager) : Prog (result string) :=
  listed ← call CFListDistributions;
  match listed with
  | Err err => Ret (Err ("failed to list distributions: " +:+ err))
  | Ok None => Ret (Ok "")
  | Ok (Some items) => Ret (Ok (findCloudFrontDistribution_scan (fullDomain pm) items))
  end.

Definition createCloudFrontDistribution (pm : PreviewManager) (oacID : string)
  : Prog (result string) :=
  Println "  Creating new CloudFront distribution...";;
  let s3DomainName :=
    bucketName pm +:+ ".s3." +:+ Region (cfg pm) +:+ ".amazonaws.com" in
  now ← call TimeNowUnix;
  let callerReference :=
    "pr-" +:+ fmt_d (PRNumber (cfg pm)) +:+ "-" +:+ fmt_d now in
  let viewerCertificate :=
    if decide (CertificateARN (cfg pm) = "") then ViewerCertificateDefault true
    else ViewerCertificateACM (CertificateARN (cfg pm)) SSLSupportMethodSniOnly
           MinimumProtocolVersionTLSv132025 in
  let input :=
    {| CallerReference := callerReference;
       Comment := "PR #" +:+ fmt_d (PRNumber (cfg pm)) +:+ " Preview Environment";
       Enabled := true;
       Aliases := {| Quantity := 1; Items := [fullDomain pm] |};
       DefaultRootObject := "index.html";
       Origins :=
         {| Quantity := 1;
            Items :=
              [ {| origin_Id := "S3-" +:+ bucketName pm;
                   origin_DomainName := s3DomainName;
                   S3OriginConfig_OriginAccessIdentity := "";
                   OriginAccessControlId := oacID |} ] |};
       dc_DefaultCacheBehavior :=
         {| TargetOriginId := "S3-" +:+ bucketName pm;
            dcb_ViewerProtocolPolicy := ViewerProtocolPolicyRedirectToHttps;
            dcb_AllowedMethods :=
              {| am_Quantity := 2;
                 am_Items := [MethodGet; MethodHead];
                 CachedMethods :=
                   {| Quantity := 2; Items := [MethodGet; MethodHead] |} |};
            ForwardedValues_QueryString := false;
            ForwardedValues_Cookies_Forward := ItemSelectionNone;
            MinTTL := 0;
            DefaultTTL := 86400;
            MaxTTL := 31536000;
            Compress := true;
            TrustedSigners_Enabled := false;
            TrustedSigners_Quantity := 0 |};
       CustomErrorResponses :=
         {| Quantity := 1;
            Items :=
              [ {| ErrorCode := 404;
                   ResponsePagePath := "/index.html";
                   ResponseCode := "200";
                   ErrorCachingMinTTL := 300 |} ] |};
       dc_ViewerCertificate := viewerCertificate |} in
  created ← call (CFCreateDistribution input);
  match created with
  | Err err => Ret (Err ("failed to create distribution: " +:+ err))
  | Ok dist =>
      let distributionID := d_Id dist in
      Printf ("  ✓ Distribution created: " +:+ distributionID +:+ nl);;
      Ret (Ok distributionID)
  end.

Definition getOrCreateCloudFrontDistribution (pm : PreviewManager) (oacID : string)
  : Prog (result string) :=
  Println "Managing CloudFront distribution...";;
  found ← findCloudFrontDistribution pm;
  match found with
  | Err err => Ret (Err err)
  | Ok distributionID =>
      if decide (distributionID = "") then createCloudFrontDistribution pm oacID
      else
        Printf ("  ✓ Using existing distribution: " +:+ distributionID +:+ nl);;
        Ret (Ok distributionID)
  end.

Definition invalidateCloudFrontCache (pm : PreviewManager) (distributionID : string)
  : Prog (result unit) :=
  Println "Invalidating CloudFront cache...";;
  now ← call TimeNowUnix;
  created ← call (CFCreateInvalidation distributionID
                    ("invalidation-" +:+ fmt_d now)
                    {| Quantity := 1; Items := ["/*"] |});
  match created with
  | Err err => Ret (Err ("failed to create invalidation: " +:+ err))
  | Ok _ =>
      Println "  ✓ Cache invalidation created";;
      Ret (Ok tt)
  end.

(** [strings.Split(s, "/")]: never empty. *)
Fixpoint strings_Split_slash (s : string) : list string :=
  match s with
  | EmptyString => [""]
  | String c s' =>
      match strings_Split_slash s' with
      | [] => [String c ""]
      | part :: parts =>
          if bool_decide (c = "/"%char) then "" :: part :: parts
          else String c part :: parts
      end
  end.

Definition getHostedZoneID (pm : PreviewManager) : Prog (result string) :=
  listed ← call (R53ListHostedZonesByName (BaseDomain (cfg pm)));
  match listed with
  | Err err => Ret (Err ("failed to list hosted zones: " +:+ err))
  | Ok [] =>
      Ret (Err ("no hosted zone found for domain: " +:+ BaseDomain (cfg pm)))
  | Ok (zone :: _) =>
      let zoneID := hz_Id zone in
      let parts := strings_Split_slash zoneID in
      Ret (Ok (List.last parts ""))
  end.

Definition updateRoute53 (pm : PreviewManager) (distributionID : string)
  : Prog (result unit) :=
  Println "Updating Route53 DNS records...";;
  zone ← getHostedZoneID pm;
  match zone with
  | Err err => Ret (Err err)
  | Ok hostedZoneID =>
      dist ← call (CFGetDistribution distributionID);
      match dist with
      | Err err => Ret (Err ("failed to get distribution: " +:+ err))
      | Ok dist =>
          let cfDomain := d_DomainName dist in
          changed ← call (R53ChangeResourceRecordSets hostedZoneID
                            ChangeActionUpsert
                            {| rr_Name := fullDomain pm;
                               rr_Type := RRTypeCname;
                               rr_TTL := Some 300;
                               rr_ResourceRecords := [cfDomain] |});
          match changed with
          | Err err => Ret (Err ("failed to update DNS record: " +:+ err))
          | Ok _ =>
              Println "  ✓ DNS record updated";;
              Ret (Ok tt)
          end
      end
  end.

Definition postGitHubComment (pm : PreviewManager) : Prog (result unit) :=
  match githubClient pm with
  | None =>
      Println "Skipping GitHub comment (no GitHub token provided)";;
      Ret (Ok tt)
  | Some _ =>
      Println "Posting GitHub PR comment...";;
      let previewURL := "https://" +:+ fullDomain pm in
      let commentBody :=
        "## Preview Environment Deployed Successfully! 🚀" +:+ nl +:+ nl
        +:+ "Your preview environment is now available at:" +:+ nl
        +:+ "**" +:+ previewURL +:+ "**" +:+ nl +:+ nl
        +:+ "Note: Initial deployment may take 3-5 minutes for CloudFront to propagate globally." in
      posted ← call (GitHubCreateComment (RepoOwner (cfg pm)) (RepoName (cfg pm))
                       (PRNumber (cfg pm)) commentBody);
      match posted with
      | Err err => Ret (Err ("failed to create comment: " +:+ err))
      | Ok _ =>
          Println "  ✓ GitHub PR comment posted";;
          Ret (Ok tt)
      end
  end.

Definition Deploy (pm : PreviewManager) : Prog (result unit) :=
  Println "Starting deployment...";;
  bucket ← createS3Bucket pm;
  match bucket with
  | Err err => Ret (Err ("failed to create S3 bucket: " +:+ err))
  | Ok _ =>
  synced ← syncFilesToS3 pm;
  match synced with
  | Err err => Ret (Err ("failed to sync files to S3: " +:+ err))
  | Ok _ =>
  oac ← getOrCreateOAC pm;
  match oac with
  | Err err => Ret (Err ("failed to manage OAC: " +:+ err))
  | Ok oacID =>
  dist ← getOrCreateCloudFrontDistribution pm oacID;
  match dist with
  | Err err => Ret (Err ("failed to manage CloudFront distribution: " +:+ err))
  | Ok distributionID =>
  policy ← setBucketPolicyForOAC pm distributionID;
  match policy with
  | Err err => Ret (Err ("failed to set bucket policy: " +:+ err))
  | Ok _ =>
  invalidated ← invalidateCloudFrontCache pm distributionID;
  match invalidated with
  | Err err => Ret (Err ("failed to invalidate CloudFront cache: " +:+ err))
  | Ok _ =>
  dns ← updateRoute53 pm distributionID;
  match dns with
  | Err err => Ret (Err ("failed to update Route53: " +:+ err))
  | Ok _ =>
  comment ← postGitHubComment pm;
  match comment with
  | Err err =>
      Printf ("Warning: Failed to post GitHub comment: " +:+ err +:+ nl);;
      Ret (Ok tt)
  | Ok _ => Ret (Ok tt)
  end end end end end end end end.

(** ** cleanup.go *)

Definition deleteCloudFrontDistribution (pm : PreviewManager)
    (distributionID : string) : Prog (result unit) :=
  Printf ("Deleting CloudFront distribution: " +:+ distributionID +:+ nl);;
  fetched ← call (CFGetDistributionConfig distributionID);
  match fetched with
  | Err err => Ret (Err ("failed to get distribution config: " +:+ err))
  | Ok distConfig =>
      disabled ←
        (if Enabled (gdc_DistributionConfig distConfig) then
           Println "  Disabling distribution...";;
           let config :=
             set_Enabled false (gdc_DistributionConfig distConfig) in
           updated ← call (CFUpdateDistribution distributionID config
                             (gdc_ETag distConfig));
           match updated with
           | Err err => Ret (Err ("failed to disable distribution: " +:+ err))
           | Ok _ =>
               Println "  Waiting for distribution to be disabled...";;
               waited ← call (CFWaitDistributionDeployed distributionID (20 * 60));
               match waited with
               | Err err =>
                   Ret (Err ("failed waiting for distribution to be disabled: "
                             +:+ err))
               | Ok _ => Ret (Ok tt)
               end
           end
         else Ret (Ok tt));
      match disabled with
      | Err err => Ret (Err err)
      | Ok _ =>
          refetched ← call (CFGetDistributionConfig distributionID);
          match refetched with
          | Err err =>
              Ret (Err ("failed to get updated distribution config: " +:+ err))
          | Ok distConfig =>
              Println "  Deleting distribution...";;
              deleted ← call (CFDeleteDistribution distributionID
                                (gdc_ETag distConfig));
              match deleted with
              | Err err => Ret (Err ("failed to delete distribution: " +:+ err))
              | Ok _ =>
                  Println "  âœ“ Distribution deleted";;
                  Ret (Ok tt)
              end
          end
      end
  end.

Definition deleteRoute53Record (pm : PreviewManager) : Prog (result unit) :=
  Println "Deleting Route53 DNS record...";;
  zone ← getHostedZoneID pm;
  match zone with
  | Err err => Ret (Err err)
  | Ok hostedZoneID =>
      records ← call (R53ListResourceRecordSets hostedZoneID (fullDomain pm)
                        RRTypeCname 1);
      match records with
      | Err err => Ret (Err ("failed to list records: " +:+ err))
      | Ok [] =>
          Println "  No DNS record found";;
          Ret (Ok tt)
      | Ok (recordSet :: _) =>
          if decide (rr_Name recordSet = fullDomain pm +:+ ".") then
            changed ← call (R53ChangeResourceRecordSets hostedZoneID
                              ChangeActionDelete recordSet);
            match changed with
            | Err err => Ret (Err ("failed to delete DNS record: " +:+ err))
            | Ok _ =>
                Println "  âœ“ DNS record deleted";;
                Ret (Ok tt)
            end
          else
            Println "  No DNS record found";;
            Ret (Ok tt)
      end
  end.

(** The SDK's [ListObjectsV2Paginator]. *)
Record ListObjectsV2Paginator : Type := {
  firstPage : bool;
  nextToken : option string
}.

Definition NewListObjectsV2Paginator : ListObjectsV2Paginator :=
  {| firstPage := true; nextToken := None |}.

Definition HasMorePages (p : ListObjectsV2Paginator) : bool :=
  firstPage p
  || match nextToken p with
     | Some token => negb (String.eqb token "")
     | None => false
     end.

(** [NextPage], called when [HasMorePages] holds: the page or the error,
    and the paginator afterwards. *)
Definition NextPage (Bucket : string) (p : ListObjectsV2Paginator)
  : Prog (result ListObjectsV2Output * ListObjectsV2Paginator) :=
  listed ← call (S3ListObjectsV2 Bucket (nextToken p));
  match listed with
  | Err err => Ret (Err err, p)
  | Ok page =>
      let next :=
        match IsTruncated page with
        | Some true => NextContinuationToken page
        | _ => None
        end in
      Ret (Ok page, {| firstPage := false; nextToken := next |})
  end.

(** The loop [for paginator.HasMorePages()] of [deleteS3Bucket].  The
    provider decides how many pages there are, so the loop runs on fuel:
    [None] is a loop that has not ended when the fuel has. *)
Fixpoint deleteS3Bucket_pages (fuel : nat) (pm : PreviewManager)
    (paginator : ListObjectsV2Paginator) : Prog (option (result unit)) :=
  if HasMorePages paginator then
    match fuel with
    | O => Ret None
    | S fuel' =>
        next ← NextPage (bucketName pm) paginator;
        match next with
        | (Err err, _) => Ret (Some (Err ("failed to list objects: " +:+ err)))
        | (Ok page, paginator') =>
            match Contents page with
            | [] => deleteS3Bucket_pages fuel' pm paginator'
            | _ :: _ =>
                let objects := Contents page in
                deleted ← call (S3DeleteObjects (bucketName pm) objects);
                match deleted with
                | Err err =>
                    Ret (Some (Err ("failed to delete objects: " +:+ err)))
                | Ok _ => deleteS3Bucket_pages fuel' pm paginator'
                end
            end
        end
    end
  else Ret (Some (Ok tt)).

Definition deleteS3Bucket (fuel : nat) (pm : PreviewManager)
  : Prog (option (result unit)) :=
  Printf ("Deleting S3 bucket: " +:+ bucketName pm +:+ nl);;
  head ← call (S3HeadBucket (bucketName pm));
  match head with
  | Err _ =>
      Println "  Bucket does not exist";;
      Ret (Some (Ok tt))
  | Ok _ =>
      Println "  Deleting all objects...";;
      emptied ← deleteS3Bucket_pages fuel pm NewListObjectsV2Paginator;
      match emptied with
      | None => Ret None
      | Some (Err err) => Ret (Some (Err err))
      | Some (Ok _) =>
          deleted ← call (S3DeleteBucket (bucketName pm));
          match deleted with
          | Err err => Ret (Some (Err ("failed to delete bucket: " +:+ err)))
          | Ok _ =>
              Println "  âœ“ Bucket deleted";;
              Ret (Some (Ok tt))
          end
      end
  end.

Definition postCleanupGitHubComment (pm : PreviewManager) : Prog (result unit) :=
  match githubClient pm with
  | None =>
      Println "Skipping GitHub comment (no GitHub token provided)";;
      Ret (Ok tt)
  | Some _ =>
      Println "Posting cleanup GitHub PR comment...";;
      let commentBody :=
        "## Preview Environment Cleanup Complete ðŸ§¹" +:+ nl +:+ nl
        +:+ "The preview environment for PR #" +:+ fmt_d (PRNumber (cfg pm))
        +:+ " has been successfully cleaned up." +:+ nl +:+ nl
        +:+ "All resources have been removed:" +:+ nl
        +:+ "- CloudFront distribution" +:+ nl
        +:+ "- Route53 DNS records" +:+ nl
        +:+ "- S3 bucket and contents" in
      posted ← call (GitHubCreateComment (RepoOwner (cfg pm)) (RepoName (cfg pm))
                       (PRNumber (cfg pm)) commentBody);
      match posted with
      | Err err => Ret (Err ("failed to create comment: " +:+ err))
      | Ok _ =>
          Println "  âœ“ GitHub PR comment posted";;
          Ret (Ok tt)
      end
  end.

Definition Cleanup (fuel : nat) (pm : PreviewManager)
  : Prog (option (result unit)) :=
  Println "Starting cleanup...";;
  found ← findCloudFrontDistribution pm;
  match found with
  | Err err => Ret (Some (Err ("failed to find distribution: " +:+ err)))
  | Ok distributionID =>
  distribution ←
    (if decide (distributionID = "") then
       Println "  No CloudFront distribution found";;
       Ret (Ok tt)
     else deleteCloudFrontDistribution pm distributionID);
  match distribution with
  | Err err =>
      Ret (Some (Err ("failed to delete CloudFront distribution: " +:+ err)))
  | Ok _ =>
  record ← deleteRoute53Record pm;
  match record with
  | Err err =>
      Printf ("  Warning: Failed to delete Route53 record: " +:+ err +:+ nl)
  | Ok _ => Ret tt
  end;;
  bucket ← deleteS3Bucket fuel pm;
  match bucket with
  | None => Ret None
  | Some (Err err) => Ret (Some (Err ("failed to delete S3 bucket: " +:+ err)))
  | Some (Ok _) =>
  comment ← postCleanupGitHubComment pm;
  match comment with
  | Err err =>
      Printf ("Warning: Failed to post GitHub comment: " +:+ err +:+ nl)
  | Ok _ => Ret tt
  end;;
  Ret (Some (Ok tt))
  end end end.

(** ** main.go: the entry point

    [main] after [flag.Parse]: [c] holds the flags, [awsCfg] is the outcome
    of [config.LoadDefaultConfig] and [token] the value of GITHUB_TOKEN.
    [log.Fatal] ends the process with status 1: it is the error returned
    here, under the message it prints.  What the [log] package writes to
    standard error is not an event. *)
Definition main (c : Config) (awsCfg : result unit) (token : string)
    (fuel : nat) : Prog (option (result unit)) :=
  if decide (PRNumber c = 0) then
    Ret (Some (Err "PR number is required (--pr)"))
  else if decide (AppName c = "") then
    Ret (Some (Err "App name is required (--app)"))
  else if decide (BaseDomain c = "") then
    Ret (Some (Err "Base domain is required (--domain)"))
  else if decide (RepoOwner c = "") then
    Ret (Some (Err "Repository owner is required (--repo-owner)"))
  else
    match awsCfg with
    | Err err => Ret (Some (Err ("Unable to load AWS config: " +:+ err)))
    | Ok _ =>
        let pm := newPreviewManager c token in
        if decide (Action c = "cleanup") then
          cleaned ← Cleanup fuel pm;
          match cleaned with
          | None => Ret None
          | Some (Err err) => Ret (Some (Err ("Cleanup failed: " +:+ err)))
          | Some (Ok _) =>
              Println "Cleanup completed successfully";;
              Ret (Some (Ok tt))
          end
        else
          deployed ← Deploy pm;
          match deployed with
          | Err err => Ret (Some (Err ("Deployment failed: " +:+ err)))
          | Ok _ =>
              Printf (nl +:+ "✓ Preview environment deployed successfully!" +:+ nl);;
              Printf ("URL: https://" +:+ fullDomain pm +:+ nl);;
              Printf ("Note: Initial deployment may take 3-5 minutes for CloudFront to propagate globally." +:+ nl);;
              Ret (Some (Ok tt))
          end
    end.

(** ** Reasoning about executions *)

Local Open Scope list_scope.

(** [simpl] computes the concatenation of strings again. *)
Local Arguments String.append !s1 s2 /.

Lemma run_bind {A B : Type} (o : Oracle) (h : list Event) (p : Prog A)
    (f : A -> Prog B) :
  run o h (bind p f) =
    let '(t1, a) := run o h p in
    let '(t2, b) := run o (h ++ t1) (f a) in
    (t1 ++ t2, b).
Proof.
  revert h. induction p as [a|c k IH]; intros h; simpl.
  - rewrite app_nil_r. destruct (run o h (f a)); reflexivity.
  - rewrite IH.
    destruct (run o (h ++ [Ev c (o h c)]) (k (o h c))) as [t1 a].
    rewrite <- app_assoc. simpl.
    destruct (run o (h ++ Ev c (o h c) :: t1) (f a)); reflexivity.
Qed.

(** What may be assumed of the answers of the environment: nothing. *)
Definition any : forall c : Call, Resp c -> Prop := fun _ _ => True.

(** A weakest precondition over program trees: whatever the environment
    answers within [A], the trace and the value of [p] satisfy [Q]. *)
Fixpoint wp {R : Type} (A : forall c : Call, Resp c -> Prop)
    (Q : list Event -> R -> Prop) (p : Prog R) : Prop :=
  match p with
  | Ret r => Q [] r
  | Vis c k =>
      forall r : Resp c, A c r -> wp A (fun t v => Q (Ev c r :: t) v) (k r)
  end.

(** An oracle that keeps to [A] at every point of every run. *)
Definition obeys (o : Oracle) (A : forall c : Call, Resp c -> Prop) : Prop :=
  forall (h : list Event) (c : Call), A c (o h c).

Lemma obeys_any (o : Oracle) : obeys o any.
Proof. intros h c. exact I. Qed.

Lemma wp_sound {R : Type} (A : forall c : Call, Resp c -> Prop) (o : Oracle)
    (p : Prog R) :
  obeys o A -> forall (Q : list Event -> R -> Prop) (h : list Event),
  wp A Q p -> Q (run o h p).1 (run o h p).2.
Proof.
  intros Ho. induction p as [r|c k IH]; intros Q h Hwp; simpl in *.
  - exact Hwp.
  - specialize (IH (o h c) _ (h ++ [Ev c (o h c)]) (Hwp _ (Ho h c))).
    destruct (run o (h ++ [Ev c (o h c)]) (k (o h c))) as [t v]. exact IH.
Qed.

Lemma wp_mono {R : Type} (A : forall c : Call, Resp c -> Prop) (p : Prog R) :
  forall Q Q' : list Event -> R -> Prop,
  (forall t v, Q t v -> Q' t v) -> wp A Q p -> wp A Q' p.
Proof.
  induction p as [r|c k IH]; intros Q Q' HQ; simpl; [apply HQ|].
  intros Hk r Hr. eapply IH; [|apply Hk, Hr]. intros t v. apply HQ.
Qed.

Lemma wp_bind {X Y : Type} (A : forall c : Call, Resp c -> Prop) (p : Prog X)
    (f : X -> Prog Y) :
  forall Q : list Event -> Y -> Prop,
  wp A (fun t1 x => wp A (fun t2 y => Q (t1 ++ t2) y) (f x)) p ->
  wp A Q (bind p f).
Proof.
  induction p as [x|c k IH]; intros Q; simpl.
  - intros H. exact H.
  - intros Hk r Hr. apply IH. eapply wp_mono; [|apply Hk, Hr].
    intros t v H. exact H.
Qed.

(** A trace without a call of the kind [bad]. *)
Definition avoids (bad : Call -> bool) (t : list Event) : Prop :=
  existsb bad (calls t) = false.

Lemma avoids_cons (bad : Call -> bool) (c : Call) (r : Resp c) (t : list Event) :
  bad c = false -> avoids bad t -> avoids bad (Ev c r :: t).
Proof. unfold avoids. simpl. intros -> ->. reflexivity. Qed.

Lemma avoids_app (bad : Call -> bool) (t1 t2 : list Event) :
  avoids bad t1 -> avoids bad t2 -> avoids bad (t1 ++ t2).
Proof.
  unfold avoids, calls. rewrite map_app, existsb_app. intros -> ->. reflexivity.
Qed.

Ltac avoided :=
  repeat first [ apply avoids_cons; [reflexivity|]
               | apply avoids_app; [assumption|] ];
  first [ assumption | reflexivity ].

Lemma wp_weaken {R : Type} (A : forall c : Call, Resp c -> Prop) (p : Prog R) :
  forall Q : list Event -> R -> Prop, wp any Q p -> wp A Q p.
Proof.
  induction p as [r|c k IH]; intros Q; simpl; [auto|].
  intros Hk r _. apply IH, Hk. exact I.
Qed.

(** Sequencing: a step that is known to satisfy [Q1], then the rest. *)
Lemma wp_seq {X Y : Type} (A : forall c : Call, Resp c -> Prop) (p : Prog X)
    (f : X -> Prog Y) (Q1 : list Event -> X -> Prop)
    (Q : list Event -> Y -> Prop) :
  wp A Q1 p ->
  (forall t1 x, Q1 t1 x -> wp A (fun t2 y => Q (t1 ++ t2) y) (f x)) ->
  wp A Q (bind p f).
Proof.
  intros Hp Hf. apply wp_bind. eapply wp_mono; [|exact Hp]. exact Hf.
Qed.

(** ** Identity of an environment *)

Definition is_digit (c : ascii) : bool :=
  (Nat.leb 48 (nat_of_ascii c) && Nat.leb (nat_of_ascii c) 57)%bool.

Fixpoint digits (s : string) : bool :=
  match s with
  | EmptyString => true
  | String c s' => is_digit c && digits s'
  end.

Lemma append_assoc' (a b c : string) : (a +:+ b) +:+ c = a +:+ (b +:+ c).
Proof. induction a as [|x a IH]; simpl; [reflexivity|now rewrite IH]. Qed.

Lemma append_nil_r (a : string) : a +:+ "" = a.
Proof. induction a as [|x a IH]; simpl; [reflexivity|now rewrite IH]. Qed.

Lemma digits_app (a b : string) :
  digits a = true -> digits b = true -> digits (a +:+ b) = true.
Proof.
  induction a as [|x a IH]; simpl; [auto|].
  intros [Hx Ha]%andb_prop Hb. now rewrite Hx, IH.
Qed.

Lemma pretty_N_char_digit (x : N) : is_digit (pretty_N_char x) = true.
Proof. unfold pretty_N_char. repeat case_match; reflexivity. Qed.

Lemma pretty_N_go_digits (x : N) (s : string) :
  exists d, pretty_N_go x s = d +:+ s /\ digits d = true /\ ((0 < x)%N -> d <> "").
Proof.
  revert s. induction (N.lt_wf_0 x) as [x _ IH]. intros s.
  destruct (decide (x = 0%N)) as [->|Hx].
  - exists "". rewrite pretty_N_go_0. repeat split. lia.
  - rewrite pretty_N_go_step by lia.
    destruct (IH (x `div` 10)%N) with (s := String (pretty_N_char (x `mod` 10)) s)
      as (d & Hd & Hdig & _).
    { apply N.div_lt; lia. }
    exists (d +:+ String (pretty_N_char (x `mod` 10)) "").
    rewrite Hd, append_assoc'. simpl. repeat split.
    + apply digits_app; [assumption|]. simpl.
      now rewrite pretty_N_char_digit.
    + intros _. destruct d; discriminate.
Qed.

(** [%d] writes an optional minus sign and then at least one digit. *)
Lemma fmt_d_shape (n : Z) :
  exists sign d, fmt_d n = sign +:+ d /\ (sign = "" \/ sign = "-")
    /\ digits d = true /\ d <> "".
Proof.
  assert (HN : forall p : positive, exists d,
             pretty (N.pos p) = d /\ digits d = true /\ d <> "").
  { intros p. unfold pretty, pretty_N.
    destruct (decide (N.pos p = 0%N)) as [|_]; [discriminate|].
    destruct (pretty_N_go_digits (N.pos p) "") as (d & Hd & Hdig & Hne).
    exists d. rewrite Hd, append_nil_r. repeat split; auto. apply Hne. lia. }
  unfold fmt_d, pretty, pretty_Z. destruct n as [|p|p].
  - exists "", "0". repeat split; auto; discriminate.
  - destruct (HN p) as (d & Hd & Hdig & Hne).
    exists "", d. repeat split; auto.
  - destruct (HN p) as (d & Hd & Hdig & Hne).
    exists "-", d. unfold pretty, pretty_positive. rewrite Hd. repeat split; auto.
Qed.

(** Two digit strings, each followed by a dash, that agree as prefixes of
    one text are the same digit string. *)
Lemma digits_dash_inj (d1 d2 a1 a2 : string) :
  digits d1 = true -> digits d2 = true ->
  d1 +:+ "-" +:+ a1 = d2 +:+ "-" +:+ a2 -> d1 = d2 /\ a1 = a2.
Proof.
  revert d2. induction d1 as [|x d1 IH]; intros [|y d2]; simpl.
  - intros _ _ [= ->]. auto.
  - intros _ [Hy _]%andb_prop [= <- _]. discriminate.
  - intros [Hx _]%andb_prop _ [= -> _]. discriminate.
  - intros [_ H1]%andb_prop [_ H2]%andb_prop [= -> H].
    destruct (IH d2 H1 H2 H) as [-> ->]. auto.
Qed.

Lemma fmt_d_dash_inj (n1 n2 : Z) (a1 a2 : string) :
  fmt_d n1 +:+ "-" +:+ a1 = fmt_d n2 +:+ "-" +:+ a2 -> n1 = n2 /\ a1 = a2.
Proof.
  destruct (fmt_d_shape n1) as (s1 & d1 & E1 & Hs1 & Hd1 & Hn1).
  destruct (fmt_d_shape n2) as (s2 & d2 & E2 & Hs2 & Hd2 & Hn2).
  intros H. assert (fmt_d n1 = fmt_d n2 /\ a1 = a2) as [Hn Ha].
  { rewrite E1, E2 in *. rewrite !append_assoc' in H.
    destruct Hs1 as [->| ->], Hs2 as [->| ->]; simpl in *.
    - destruct (digits_dash_inj _ _ _ _ Hd1 Hd2 H) as [-> ->]. auto.
    - destruct d1 as [|x d1]; [congruence|]. simpl in *.
      apply andb_prop in Hd1 as [Hx _]. injection H as -> _. discriminate.
    - destruct d2 as [|y d2]; [congruence|]. simpl in *.
      apply andb_prop in Hd2 as [Hy _]. injection H as <- _. discriminate.
    - injection H as H.
      destruct (digits_dash_inj _ _ _ _ Hd1 Hd2 H) as [-> ->]. auto. }
  split; [|assumption]. unfold fmt_d in Hn. now apply pretty_Z_inj in Hn.
Qed.

(** C8.  The identity of an environment is a function of the pull-request
    number and the application name alone: the bucket is named
    [pr-{key}-{app}], the hostname is the bucket name, a dot and the base
    domain, and two environments with the same bucket name have the same
    key and the same application name. *)
Theorem identity_is_injective :
  (forall c token,
     bucketName (newPreviewManager c token)
       = "pr-" +:+ fmt_d (PRNumber c) +:+ "-" +:+ AppName c) /\
  (forall c token,
     fullDomain (newPreviewManager c token)
       = bucketName (newPreviewManager c token) +:+ "." +:+ BaseDomain c) /\
  (forall c1 token1 c2 token2,
     PRNumber c1 = PRNumber c2 -> AppName c1 = AppName c2 ->
     bucketName (newPreviewManager c1 token1)
       = bucketName (newPreviewManager c2 token2)) /\
  (forall c1 token1 c2 token2,
     bucketName (newPreviewManager c1 token1)
       = bucketName (newPreviewManager c2 token2) ->
     PRNumber c1 = PRNumber c2 /\ AppName c1 = AppName c2).
Proof.
  split; [|split; [|split]]; simpl.
  - reflexivity.
  - reflexivity.
  - intros c1 _ c2 _ -> ->. reflexivity.
  - intros c1 _ c2 _ [= H]. now apply fmt_d_dash_inj in H.
Qed.

(** The environment of the examples: pull request 42 of the application
    [site] under the base domain [example.test]. *)
Definition cfg42 : Config :=
  {| PRNumber := 42;
     AppName := "site";
     Region := "us-east-1";
     BaseDomain := "example.test";
     CertificateARN := "";
     SourcePath := "./dist";
     Action := "deploy";
     RepoOwner := "octo";
     RepoName := "preview" |}.

Definition pm42 : PreviewManager := newPreviewManager cfg42 "".

Lemma identity_is_injective_witness :
  bucketName (newPreviewManager cfg42 "") = "pr-42-site" /\
  fullDomain (newPreviewManager cfg42 "") = "pr-42-site.example.test" /\
  PRNumber cfg42 = PRNumber cfg42 /\ AppName cfg42 = AppName cfg42.
Proof.
  split; [reflexivity|]. split; [reflexivity|].
  apply (proj2 (proj2 (proj2 identity_is_injective)) cfg42 "" cfg42 "token").
  reflexivity.
Defined.

(** ** Content types *)

(** Letter case, byte by byte: [c] is [lower] itself or, when [lower] is one
    of a-z, its capital letter. *)
Definition letter_of (lower c : ascii) : bool :=
  (Ascii.eqb c lower ||
   (Nat.leb 97 (nat_of_ascii lower) && Nat.leb (nat_of_ascii lower) 122 &&
    Nat.eqb (nat_of_ascii c + 32) (nat_of_ascii lower)))%bool.

(** [s] is [lower] written with any of its letters as capitals. *)
Fixpoint spelling_of (lower s : string) : bool :=
  match lower, s with
  | EmptyString, EmptyString => true
  | String a lower', String c s' => (letter_of a c && spelling_of lower' s')%bool
  | _, _ => false
  end.

(** The extensions the table of [getContentType] has an entry for. *)
Definition extensions : list string :=
  [ ".html"; ".css"; ".js"; ".json"; ".png"; ".jpg"; ".jpeg"; ".gif"; ".svg";
    ".ico"; ".xml"; ".pdf"; ".txt" ].

Lemma contentTypes_extensions (ext ct : string) :
  contentTypes !! ext = Some ct ->
  In ext extensions /\ isASCII ext = true /\ hasUpper ext = false.
Proof.
  intros H. apply elem_of_list_to_map_2 in H.
  repeat (apply elem_of_cons in H as [H|H];
          [injection H as -> ->; split; [simpl; tauto|split; reflexivity]|]).
  now apply elem_of_nil in H.
Qed.

Lemma lower_bytes_without_capital (s : string) :
  hasUpper s = false -> lower_bytes s = s.
Proof.
  induction s as [|c s IH]; simpl; [reflexivity|].
  intros [Hc Hs]%orb_false_iff. unfold lower_byte. rewrite Hc.
  now rewrite (IH Hs).
Qed.

(** On a string of ASCII bytes [strings.ToLower] is the byte loop. *)
Lemma strings_ToLower_ascii (s : string) :
  isASCII s = true -> strings_ToLower s = lower_bytes s.
Proof.
  intros H. unfold strings_ToLower. rewrite H.
  destruct (hasUpper s) eqn:Hu; [reflexivity|].
  symmetry. now apply lower_bytes_without_capital.
Qed.

Lemma letter_of_lower (a c : ascii) :
  is_upper a = false -> letter_of a c = true ->
  (is_ascii a = true -> is_ascii c = true) /\ lower_byte c = a.
Proof.
  unfold letter_of, lower_byte, is_upper, is_ascii. intros Ha H.
  apply orb_true_iff in H as [H|H].
  - apply Ascii.eqb_eq in H as ->. rewrite Ha. auto.
  - apply andb_true_iff in H as [H Heq]. apply andb_true_iff in H as [Hlo Hhi].
    apply Nat.leb_le in Hlo, Hhi. apply Nat.eqb_eq in Heq.
    split.
    + intros _. apply Nat.ltb_lt. lia.
    + replace (Nat.leb 65 (nat_of_ascii c) && Nat.leb (nat_of_ascii c) 90)%bool
        with true.
      * rewrite Heq. apply ascii_nat_embedding.
      * symmetry. apply andb_true_iff. split; apply Nat.leb_le; lia.
Qed.

Lemma spelling_of_lower (lower s : string) :
  hasUpper lower = false -> spelling_of lower s = true ->
  (isASCII lower = true -> isASCII s = true) /\ lower_bytes s = lower.
Proof.
  revert s. induction lower as [|a lower IH]; intros [|c s]; simpl;
    try discriminate; [auto|].
  intros [Ha Hl]%orb_false_iff [Hc Hs]%andb_true_iff.
  destruct (letter_of_lower a c Ha Hc) as [Hascii ->].
  destruct (IH s Hl Hs) as [Hrest ->]. split; [|reflexivity].
  intros [H1 H2]%andb_true_iff. now rewrite (Hascii H1), (Hrest H2).
Qed.

Lemma letter_of_lower_byte (c : ascii) : letter_of (lower_byte c) c = true.
Proof. destruct c as [[] [] [] [] [] [] [] []]; vm_compute; reflexivity. Qed.

Lemma spelling_of_lower_bytes (s : string) : spelling_of (lower_bytes s) s = true.
Proof.
  induction s as [|c s IH]; simpl; [reflexivity|].
  now rewrite letter_of_lower_byte, IH.
Qed.

(** An extension that is a key of the table in some letter case is lowered
    to that key. *)
Lemma strings_ToLower_spelling (key ct ext : string) :
  contentTypes !! key = Some ct -> spelling_of key ext = true ->
  strings_ToLower ext = key.
Proof.
  intros Hkey Hs. destruct (contentTypes_extensions key ct Hkey) as (_ & Ha & Hu).
  destruct (spelling_of_lower key ext Hu Hs) as [Hascii Hl].
  now rewrite (strings_ToLower_ascii ext (Hascii Ha)).
Qed.

(** C9.  The content type of a file is the entry of the fixed table for the
    lower-cased extension of its name.  An extension that spells [.html] in
    any letter case gives [text/html], one that spells [.js] gives
    [application/javascript], and so for every key of the table; an
    extension of ASCII bytes that spells no key gives
    [application/octet-stream], as does any extension whose lower-cased form
    has no entry. *)
Theorem getContentType_table (filename : string) :
  let ext := strings_ToLower (filepath_Ext filename) in
  (spelling_of ".html" (filepath_Ext filename) = true ->
   getContentType filename = "text/html") /\
  (spelling_of ".js" (filepath_Ext filename) = true ->
   getContentType filename = "application/javascript") /\
  (forall key ct,
     contentTypes !! key = Some ct ->
     spelling_of key (filepath_Ext filename) = true ->
     getContentType filename = ct) /\
  (isASCII (filepath_Ext filename) = true ->
   (forall key, In key extensions ->
                spelling_of key (filepath_Ext filename) = false) ->
   getContentType filename = "application/octet-stream") /\
  (contentTypes !! ext = None ->
   getContentType filename = "application/octet-stream") /\
  (forall ct, contentTypes !! ext = Some ct -> getContentType filename = ct) /\
  (forall other,
     strings_ToLower (filepath_Ext other) = ext ->
     getContentType other = getContentType filename).
Proof.
  assert (Hkey : forall key ct,
             contentTypes !! key = Some ct ->
             spelling_of key (filepath_Ext filename) = true ->
             getContentType filename = ct).
  { intros key ct Hkey Hs. unfold getContentType.
    now rewrite (strings_ToLower_spelling key ct _ Hkey Hs), Hkey. }
  cbv zeta. split; [|split; [|split; [|split; [|split; [|split]]]]].
  - apply (Hkey ".html" "text/html"). reflexivity.
  - apply (Hkey ".js" "application/javascript"). reflexivity.
  - exact Hkey.
  - intros Hascii Hnone. unfold getContentType.
    rewrite (strings_ToLower_ascii _ Hascii).
    destruct (contentTypes !! lower_bytes (filepath_Ext filename)) as [ct|] eqn:Hct;
      [|reflexivity].
    destruct (contentTypes_extensions _ _ Hct) as (Hin & _).
    specialize (Hnone _ Hin). now rewrite spelling_of_lower_bytes in Hnone.
  - unfold getContentType. intros ->. reflexivity.
  - unfold getContentType. intros ct ->. reflexivity.
  - unfold getContentType. intros other ->. reflexivity.
Qed.

(** Where the Unicode mapping lowers the capital I with a dot of [.gİf] to
    [i], the file is a GIF image. *)
Lemma getContentType_dotted_I :
  strings_Map_ToLower ".gİf" = ".gif" -> getContentType "x.gİf" = "image/gif".
Proof. unfold getContentType. intros H. vm_compute. now rewrite H. Qed.

(** ** Sample environments *)

Definition sampleDistributionConfig (enabled : bool) : DistributionConfig :=
  {| CallerReference := "pr-42-1700000000";
     Comment := "PR #42 Preview Environment";
     Enabled := enabled;
     Aliases := {| Quantity := 1; Items := ["pr-42-site.example.test"] |};
     DefaultRootObject := "index.html";
     Origins := {| Quantity := 0; Items := [] |};
     dc_DefaultCacheBehavior :=
       {| TargetOriginId := "S3-pr-42-site";
          dcb_ViewerProtocolPolicy := ViewerProtocolPolicyRedirectToHttps;
          dcb_AllowedMethods :=
            {| am_Quantity := 2;
               am_Items := [MethodGet; MethodHead];
               CachedMethods := {| Quantity := 2; Items := [MethodGet; MethodHead] |} |};
          ForwardedValues_QueryString := false;
          ForwardedValues_Cookies_Forward := ItemSelectionNone;
          MinTTL := 0;
          DefaultTTL := 86400;
          MaxTTL := 31536000;
          Compress := true;
          TrustedSigners_Enabled := false;
          TrustedSigners_Quantity := 0 |};
     CustomErrorResponses := {| Quantity := 0; Items := [] |};
     dc_ViewerCertificate := ViewerCertificateDefault true |}.

(** An account without any resource, in which every call succeeds. *)
Definition empty_account : Oracle := fun _ c =>
  match c as c' return Resp c' with
  | Stdout _ => tt
  | TimeNowUnix => 1700000000
  | FilepathWalk _ => []
  | FilepathRel _ targpath => Ok targpath
  | OsReadFile _ => Ok ""
  | S3HeadBucket _ => Err "NotFound"
  | S3CreateBucket _ _ => Ok tt
  | S3PutObject _ _ _ _ => Ok tt
  | S3PutBucketPolicy _ _ => Ok tt
  | S3ListObjectsV2 _ _ =>
      Ok {| Contents := []; IsTruncated := Some false;
            NextContinuationToken := None |}
  | S3DeleteObjects _ _ => Ok tt
  | S3DeleteBucket _ => Ok tt
  | CFListOriginAccessControls => Ok (Some [])
  | CFCreateOriginAccessControl config =>
      Ok {| oac_Id := "E2OAC"; oac_Name := oacc_Name config |}
  | CFListDistributions => Ok (Some [])
  | CFCreateDistribution _ =>
      Ok {| d_Id := "E1DIST";
            d_ARN := "arn:aws:cloudfront::1:distribution/E1DIST";
            d_DomainName := "d111.cloudfront.net" |}
  | CFGetDistribution Id =>
      Ok {| d_Id := Id;
            d_ARN := "arn:aws:cloudfront::1:distribution/" +:+ Id;
            d_DomainName := "d111.cloudfront.net" |}
  | CFGetDistributionConfig _ =>
      Ok {| gdc_DistributionConfig := sampleDistributionConfig false;
            gdc_ETag := Some "ETAG0" |}
  | CFUpdateDistribution _ _ _ => Ok tt
  | CFWaitDistributionDeployed _ _ => Ok tt
  | CFDeleteDistribution _ _ => Ok tt
  | CFCreateInvalidation _ _ _ => Ok tt
  | R53ListHostedZonesByName _ => Ok []
  | R53ListResourceRecordSets _ _ _ _ => Ok []
  | R53ChangeResourceRecordSets _ _ _ => Ok tt
  | GitHubCreateComment _ _ _ _ => Ok tt
  end.

Definition is_CFGetDistributionConfig (c : Call) : bool :=
  match c with CFGetDistributionConfig _ => true | _ => false end.

(** How many configurations the run has fetched so far. *)
Definition fetches (h : list Event) : nat :=
  length (List.filter (fun e => is_CFGetDistributionConfig (ev_call e)) h).

(** ** Teardown of a distribution *)

Definition is_CFDeleteDistribution (c : Call) : bool :=
  match c with CFDeleteDistribution _ _ => true | _ => false end.

(** The calls between the first fetch and the second when both succeed:
    nothing for a distribution that is already disabled, otherwise the
    update that disables it, under the token of the first fetch, and the
    wait of at most twenty minutes. *)
Definition disable_events (Id : string) (fetched : GetDistributionConfigOutput)
  : list Event :=
  if Enabled (gdc_DistributionConfig fetched) then
    [ Ev (CFUpdateDistribution Id
            (set_Enabled false (gdc_DistributionConfig fetched))
            (gdc_ETag fetched)) (Ok tt);
      Ev (CFWaitDistributionDeployed Id 1200) (Ok tt) ]
  else [].

(** The flag of the configuration fetched last before the delete call of a
    trace; [None] when the trace has no delete call or no fetch before it. *)
Fixpoint enabled_at_delete (last : option bool) (t : list Event) : option bool :=
  match t with
  | [] => None
  | Ev c r :: t' =>
      match c as c' return Resp c' -> option bool with
      | CFDeleteDistribution _ _ => fun _ => last
      | CFGetDistributionConfig _ => fun r =>
          match r with
          | Ok out =>
              enabled_at_delete (Some (Enabled (gdc_DistributionConfig out))) t'
          | Err _ => enabled_at_delete last t'
          end
      | _ => fun _ => enabled_at_delete last t'
      end r
  end.

(** A distribution that is disabled at the first fetch and enabled again,
    by someone else, at the second. *)
Definition enabled_between_fetches : Oracle := fun h c =>
  match c as c' return Resp c' with
  | CFGetDistributionConfig _ =>
      match fetches h with
      | O => Ok {| gdc_DistributionConfig := sampleDistributionConfig false;
                   gdc_ETag := Some "ETAG1" |}
      | S _ => Ok {| gdc_DistributionConfig := sampleDistributionConfig true;
                     gdc_ETag := Some "ETAG2" |}
      end
  | c' => empty_account h c'
  end.

(** Symbolic execution: name each answer of the environment, and split on
    it where the program does. *)
Ltac exec_step :=
  cbn [wp bind call Println Printf];
  match goal with
  | |- forall r : Resp _, _ -> _ =>
      let r := fresh "r" in
      let Hr := fresh "Hr" in
      intros r Hr; cbn in r; try (unfold any in Hr; clear Hr)
  | |- wp _ _ (match ?x with _ => _ end) => destruct x eqn:?
  | |- wp _ _ (bind (match ?x with _ => _ end) _) => destruct x eqn:?
  end.

Ltac exec := repeat exec_step; cbn [wp].

Ltac units := repeat match goal with u : unit |- _ => destruct u end.

(** The delete call is the last call of a teardown.  Before it come the
    first fetch, the disabling of a distribution that the first fetch found
    enabled, and the second fetch, whose token the delete carries. *)
Lemma deleteCloudFrontDistribution_wp (pm : PreviewManager) (Id : string) :
  wp any
    (fun t _ =>
       existsb is_CFDeleteDistribution (calls t) = true ->
       exists first refetched answer,
         api t =
           Ev (CFGetDistributionConfig Id) (Ok first)
           :: disable_events Id first
           ++ [ Ev (CFGetDistributionConfig Id) (Ok refetched);
                Ev (CFDeleteDistribution Id (gdc_ETag refetched)) answer ])
    (deleteCloudFrontDistribution pm Id).
Proof.
  unfold deleteCloudFrontDistribution. exec; units; cbn; try discriminate.
  all: intros _; eexists _, _, _; unfold disable_events;
    match goal with H : Enabled _ = _ |- _ => rewrite H end; reflexivity.
Qed.

(** C1 (as amended).  In every run of the teardown in which the delete call
    is issued, the first fetch succeeded; if it reported the distribution
    enabled, an update with the flag off was accepted under the token of
    that fetch and the wait of at most twenty minutes ended well; then the
    configuration was fetched again, and the delete call carries the token
    of this second fetch.  The flag of the second fetch plays no part. *)
Theorem delete_follows_disable_and_refetch (o : Oracle) (h : list Event)
    (pm : PreviewManager) (Id : string) :
  let t := (run o h (deleteCloudFrontDistribution pm Id)).1 in
  existsb is_CFDeleteDistribution (calls t) = true ->
  exists first refetched answer,
    api t =
      Ev (CFGetDistributionConfig Id) (Ok first)
      :: disable_events Id first
      ++ [ Ev (CFGetDistributionConfig Id) (Ok refetched);
           Ev (CFDeleteDistribution Id (gdc_ETag refetched)) answer ].
Proof.
  exact (wp_sound any o _ (obeys_any o) _ h
           (deleteCloudFrontDistribution_wp pm Id)).
Qed.

Lemma delete_follows_disable_and_refetch_witness :
  exists first refetched answer,
    api (run empty_account [] (deleteCloudFrontDistribution pm42 "E1DIST")).1 =
      Ev (CFGetDistributionConfig "E1DIST") (Ok first)
      :: disable_events "E1DIST" first
      ++ [ Ev (CFGetDistributionConfig "E1DIST") (Ok refetched);
           Ev (CFDeleteDistribution "E1DIST" (gdc_ETag refetched)) answer ].
Proof.
  apply (delete_follows_disable_and_refetch empty_account [] pm42 "E1DIST").
  reflexivity.
Defined.

(** C1 as stated fails: the distribution is disabled at the first fetch and
    enabled at the second; the teardown deletes it all the same, while the
    configuration fetched last reports it enabled. *)
Lemma delete_while_last_fetch_enabled :
  let run42 :=
    run enabled_between_fetches [] (deleteCloudFrontDistribution pm42 "E1DIST") in
  api run42.1 =
    [ Ev (CFGetDistributionConfig "E1DIST")
        (Ok {| gdc_DistributionConfig := sampleDistributionConfig false;
               gdc_ETag := Some "ETAG1" |});
      Ev (CFGetDistributionConfig "E1DIST")
        (Ok {| gdc_DistributionConfig := sampleDistributionConfig true;
               gdc_ETag := Some "ETAG2" |});
      Ev (CFDeleteDistribution "E1DIST" (Some "ETAG2")) (Ok tt) ] /\
  enabled_at_delete None run42.1 = Some true /\
  run42.2 = Ok tt.
Proof. vm_compute. repeat split. Qed.

(** ** Cleanup and the lookup of the distribution *)

(** An account in which the distributions cannot be listed. *)
Definition distributions_denied : Oracle := fun h c =>
  match c as c' return Resp c' with
  | CFListDistributions => Err "AccessDenied"
  | c' => empty_account h c'
  end.

(** The id that the lookup by alias reads off a list. *)
Definition found_id (pm : PreviewManager)
    (listed : option (list DistributionSummary)) : string :=
  match listed with
  | None => ""
  | Some items => findCloudFrontDistribution_scan (fullDomain pm) items
  end.

(** C2 (as amended).  When the listing of the distributions fails, Cleanup
    ends at once with the error [failed to find distribution]: nothing is
    written to the log for it and no later step is run.  When the listing
    succeeds and has no distribution with the alias, that is written to the
    log and the run goes on with the DNS record; it ends without a result,
    with success or with an error of the deletion of the bucket. *)
Theorem Cleanup_lookup_failure_is_fatal (o : Oracle) (h : list Event)
    (fuel : nat) (pm : PreviewManager) :
  let start := Ev (Stdout ("Starting cleanup..." +:+ nl)) tt in
  (forall e,
     o (h ++ [start]) CFListDistributions = Err e ->
     run o h (Cleanup fuel pm) =
       ( [ start; Ev CFListDistributions (Err e) ],
         Some (Err ("failed to find distribution: "
                    +:+ "failed to list distributions: " +:+ e)) )) /\
  (forall listed,
     o (h ++ [start]) CFListDistributions = Ok listed ->
     found_id pm listed = "" ->
     exists rest,
       (run o h (Cleanup fuel pm)).1 =
         start :: Ev CFListDistributions (Ok listed)
         :: Ev (Stdout ("  No CloudFront distribution found" +:+ nl)) tt
         :: Ev (Stdout ("Deleting Route53 DNS record..." +:+ nl)) tt :: rest /\
       ((run o h (Cleanup fuel pm)).2 = None \/
        (run o h (Cleanup fuel pm)).2 = Some (Ok tt) \/
        exists err,
          (run o h (Cleanup fuel pm)).2
            = Some (Err ("failed to delete S3 bucket: " +:+ err)))).
Proof.
  cbv zeta. split.
  - intros e He. unfold Cleanup, findCloudFrontDistribution, Println, call.
    cbn [run bind].
    destruct (o h (Stdout ("Starting cleanup..." +:+ nl))).
    rewrite He. reflexivity.
  - intros listed Hl Hnone.
    unfold Cleanup, findCloudFrontDistribution, deleteRoute53Record, Println, call.
    cbn [run bind].
    destruct (o h (Stdout ("Starting cleanup..." +:+ nl))).
    rewrite Hl.
    assert (Hfound :
      match listed with
      | None => Ret (Ok "")
      | Some items =>
          Ret (Ok (findCloudFrontDistribution_scan (fullDomain pm) items))
      end = @Ret (result string) (Ok "")).
    { destruct listed as [items|]; [|reflexivity].
      simpl in Hnone. now rewrite Hnone. }
    rewrite Hfound. cbn [run bind].
    destruct (decide ("" = "")) as [_|Hne]; [|contradiction].
    cbn [run bind].
    repeat match goal with
           | |- context [o ?h' (Stdout ?s)] => destruct (o h' (Stdout s))
           end.
    do 3 (rewrite run_bind;
          match goal with
          | |- context [run o ?h' ?p] => destruct (run o h' p) as [? ?]
          end).
    match goal with bucket : option (result unit) |- _ =>
      destruct bucket as [[[]|err]|]
    end; cbn [run bind].
    + do 2 (rewrite run_bind;
            match goal with
            | |- context [run o ?h' ?p] => destruct (run o h' p) as [? ?]
            end).
      cbn [run fst snd]. eexists. split; [reflexivity|]. right. left. reflexivity.
    + cbn [fst snd]. eexists. split; [reflexivity|].
      right. right. eexists. reflexivity.
    + cbn [fst snd]. eexists. split; [reflexivity|]. left. reflexivity.
Qed.

Lemma Cleanup_lookup_failure_is_fatal_witness :
  run distributions_denied [] (Cleanup 8 pm42) =
    ( [ Ev (Stdout ("Starting cleanup..." +:+ nl)) tt;
        Ev CFListDistributions (Err "AccessDenied") ],
      Some (Err ("failed to find distribution: "
                 +:+ "failed to list distributions: " +:+ "AccessDenied")) ) /\
  exists rest,
    (run empty_account [] (Cleanup 8 pm42)).1 =
      Ev (Stdout ("Starting cleanup..." +:+ nl)) tt
      :: Ev CFListDistributions (Ok (Some []))
      :: Ev (Stdout ("  No CloudFront distribution found" +:+ nl)) tt
      :: Ev (Stdout ("Deleting Route53 DNS record..." +:+ nl)) tt :: rest /\
    ((run empty_account [] (Cleanup 8 pm42)).2 = None \/
     (run empty_account [] (Cleanup 8 pm42)).2 = Some (Ok tt) \/
     exists err,
       (run empty_account [] (Cleanup 8 pm42)).2
         = Some (Err ("failed to delete S3 bucket: " +:+ err))).
Proof.
  split.
  - apply (proj1 (Cleanup_lookup_failure_is_fatal distributions_denied [] 8 pm42)).
    reflexivity.
  - apply (proj2 (Cleanup_lookup_failure_is_fatal empty_account [] 8 pm42)
             (Some [])); reflexivity.
Defined.

(** C2 as stated fails: after the failed listing no cleanup step follows
    and the run ends with a fatal error. *)
Lemma Cleanup_stops_at_failed_lookup :
  calls (run distributions_denied [] (Cleanup 8 pm42)).1 =
    [ Stdout ("Starting cleanup..." +:+ nl); CFListDistributions ] /\
  (run distributions_denied [] (Cleanup 8 pm42)).2 =
    Some (Err "failed to find distribution: failed to list distributions: AccessDenied").
Proof. vm_compute. split; reflexivity. Qed.

(** ** The hosted zone *)

(** [getHostedZoneID] takes the first zone of the answer, whatever its
    name, and returns what follows the last slash of its id. *)
Lemma getHostedZoneID_first_zone (o : Oracle) (h : list Event)
    (pm : PreviewManager) (zone : HostedZone) (zones : list HostedZone) :
  o h (R53ListHostedZonesByName (BaseDomain (cfg pm))) = Ok (zone :: zones) ->
  run o h (getHostedZoneID pm) =
    ( [ Ev (R53ListHostedZonesByName (BaseDomain (cfg pm))) (Ok (zone :: zones)) ],
      Ok (List.last (strings_Split_slash (hz_Id zone)) "") ).
Proof.
  intros Hz. unfold getHostedZoneID, call. cbn [run bind]. rewrite Hz. reflexivity.
Qed.

(** An account whose only hosted zone is for another domain.  The provider
    lists zones in the order of their names from the name asked for, so the
    answer to a question about [example.test] starts with this zone. *)
Definition other_zone : HostedZone :=
  {| hz_Id := "/hostedzone/Z0OTHER"; hz_Name := "zzz.test." |}.

Definition other_zone_account : Oracle := fun h c =>
  match c as c' return Resp c' with
  | R53ListHostedZonesByName _ => Ok [other_zone]
  | c' => empty_account h c'
  end.

(** C3 fails on the code: with no hosted zone for [example.test] and one
    for [zzz.test], [getHostedZoneID] returns the id of the latter and no
    error. *)
Theorem getHostedZoneID_returns_other_zone :
  run other_zone_account [] (getHostedZoneID pm42) =
    ( [ Ev (R53ListHostedZonesByName "example.test") (Ok [other_zone]) ],
      Ok "Z0OTHER" ) /\
  hz_Name other_zone <> BaseDomain (cfg pm42) /\
  hz_Name other_zone <> BaseDomain (cfg pm42) +:+ ".".
Proof. split; [reflexivity|]. split; discriminate. Qed.

(** ** Deletion of the DNS record *)

Definition is_R53Change (c : Call) : bool :=
  match c with R53ChangeResourceRecordSets _ _ _ => true | _ => false end.

(** The runs of [deleteRoute53Record], by their calls and their result. *)
Definition deleteRoute53Record_outcome (pm : PreviewManager) (t : list Event)
    (r : result unit) : Prop :=
  let base := BaseDomain (cfg pm) in
  let host := fullDomain pm in
  (exists e,
     api t = [ Ev (R53ListHostedZonesByName base) (Err e) ] /\
     r = Err ("failed to list hosted zones: " +:+ e)) \/
  (api t = [ Ev (R53ListHostedZonesByName base) (Ok []) ] /\
   r = Err ("no hosted zone found for domain: " +:+ base)) \/
  (exists zone zones,
     let zoneID := List.last (strings_Split_slash (hz_Id zone)) "" in
     let zoned := Ev (R53ListHostedZonesByName base) (Ok (zone :: zones)) in
     let list := R53ListResourceRecordSets zoneID host RRTypeCname 1 in
     (exists e,
        api t = [ zoned; Ev list (Err e) ] /\
        r = Err ("failed to list records: " +:+ e)) \/
     (api t = [ zoned; Ev list (Ok []) ] /\ r = Ok tt) \/
     (exists recordSet rest,
        rr_Name recordSet <> host +:+ "." /\
        api t = [ zoned; Ev list (Ok (recordSet :: rest)) ] /\ r = Ok tt) \/
     (exists recordSet rest answer,
        rr_Name recordSet = host +:+ "." /\
        api t = [ zoned; Ev list (Ok (recordSet :: rest));
                  Ev (R53ChangeResourceRecordSets zoneID ChangeActionDelete
                        recordSet) answer ] /\
        r = match answer with
            | Ok _ => Ok tt
            | Err e => Err ("failed to delete DNS record: " +:+ e)
            end)).

Lemma deleteRoute53Record_wp (pm : PreviewManager) :
  wp any (deleteRoute53Record_outcome pm) (deleteRoute53Record pm).
Proof.
  unfold deleteRoute53Record, getHostedZoneID, deleteRoute53Record_outcome.
  exec; units; cbn [api List.filter ev_call is_Stdout negb].
  all: try (left; eexists; split; reflexivity).
  all: try (right; left; split; reflexivity).
  all: right; right; eexists _, _.
  all: first
    [ left; eexists; split; reflexivity
    | right; left; split; reflexivity
    | right; right; left; eexists _, _;
      refine (conj _ (conj eq_refl eq_refl)); assumption
    | right; right; right; eexists _, _, _;
      refine (conj _ (conj eq_refl eq_refl)); assumption ].
Qed.

(** C4 (as amended).  A run of [deleteRoute53Record] submits a delete only
    after the lookup of the zone has succeeded and the list has returned a
    first record whose name is the hostname followed by a dot, and it
    deletes that very record.  When zone and list succeed without such a
    record the step returns success; when the lookup of the zone or the
    list fails the step returns that error.  Neither submits a delete. *)
Theorem deleteRoute53Record_runs (o : Oracle) (h : list Event)
    (pm : PreviewManager) :
  deleteRoute53Record_outcome pm
    (run o h (deleteRoute53Record pm)).1 (run o h (deleteRoute53Record pm)).2.
Proof.
  exact (wp_sound any o _ (obeys_any o) _ h (deleteRoute53Record_wp pm)).
Qed.

(** C4 as stated fails: in an account without a hosted zone no record is
    read and no delete is submitted, and yet the step does not return
    success. *)
Lemma deleteRoute53Record_without_zone_is_an_error :
  let run42 := run empty_account [] (deleteRoute53Record pm42) in
  api run42.1 = [ Ev (R53ListHostedZonesByName "example.test") (Ok []) ] /\
  existsb is_R53Change (calls run42.1) = false /\
  run42.2 = Err "no hosted zone found for domain: example.test".
Proof. vm_compute. repeat split. Qed.

(** ** Deploy on an environment that is already there *)

Definition is_create (c : Call) : bool :=
  match c with
  | S3CreateBucket _ _ => true
  | CFCreateOriginAccessControl _ => true
  | CFCreateDistribution _ => true
  | _ => false
  end.

Definition no_create (t : list Event) : Prop := avoids is_create t.

Lemma no_create_cons (c : Call) (r : Resp c) (t : list Event) :
  is_create c = false -> no_create t -> no_create (Ev c r :: t).
Proof. apply avoids_cons. Qed.

Lemma no_create_app (t1 t2 : list Event) :
  no_create t1 -> no_create t2 -> no_create (t1 ++ t2).
Proof. apply avoids_app. Qed.

(** The environment is fully deployed: the bucket is there, the list of
    access-control entities has one with the derived name, and the list of
    distributions, all with an id, has one with the hostname among its
    aliases. *)
Definition fully_deployed (pm : PreviewManager) (c : Call) : Resp c -> Prop :=
  match c as c' return Resp c' -> Prop with
  | S3HeadBucket Bucket => fun r => Bucket = bucketName pm -> r = Ok tt
  | CFListOriginAccessControls => fun r =>
      exists items oac,
        r = Ok (Some items) /\ oac ∈ items /\
        oac_Name oac = "OAC-" +:+ bucketName pm
  | CFListDistributions => fun r =>
      exists items dist aliases,
        r = Ok (Some items) /\ dist ∈ items /\
        ds_Aliases dist = Some aliases /\ fullDomain pm ∈ Items aliases /\
        Forall (fun d => ds_Id d <> "") items
  | _ => fun _ => True
  end.

(** The other calls of a deploy do not fail: the walk meets no error, the
    hosted zone is found, and reads and writes are accepted. *)
Definition accepted (c : Call) : Resp c -> Prop :=
  match c as c' return Resp c' -> Prop with
  | FilepathWalk _ => fun entries => Forall (fun e => we_err e = None) entries
  | FilepathRel _ _ => fun r => is_ok r = true
  | OsReadFile _ => fun r => is_ok r = true
  | S3PutObject _ _ _ _ => fun r => is_ok r = true
  | S3PutBucketPolicy _ _ => fun r => is_ok r = true
  | CFGetDistribution _ => fun r => is_ok r = true
  | CFCreateInvalidation _ _ _ => fun r => is_ok r = true
  | R53ListHostedZonesByName _ => fun r => exists zone zones, r = Ok (zone :: zones)
  | R53ChangeResourceRecordSets _ _ _ => fun r => is_ok r = true
  | _ => fun _ => True
  end.

(** The assumption of a deploy on a deployed environment; with [w] the
    other calls are accepted as well. *)
Definition deployed (pm : PreviewManager) (w : bool) (c : Call) (r : Resp c) : Prop :=
  fully_deployed pm c r /\ (w = true -> accepted c r).

Definition deployed_post {X : Type} (w : bool) (t : list Event) (r : result X)
  : Prop :=
  no_create t /\ (w = true -> is_ok r = true).

Lemma getOrCreateOAC_scan_found (oacName : string)
    (items : list OriginAccessControlSummary) (oac : OriginAccessControlSummary) :
  oac ∈ items -> oac_Name oac = oacName ->
  exists found, getOrCreateOAC_scan oacName items = Some found.
Proof.
  intros Hin Hname. induction items as [|other items IH]; simpl.
  - now apply elem_of_nil in Hin.
  - destruct (decide (oac_Name other = oacName)) as [|Hother]; [eauto|].
    apply elem_of_cons in Hin as [->|Hin]; [contradiction|auto].
Qed.

Lemma findCloudFrontDistribution_aliases_found (host : string)
    (aliases : list string) :
  host ∈ aliases -> findCloudFrontDistribution_aliases host aliases = true.
Proof.
  intros Hin. induction aliases as [|other aliases IH]; simpl.
  - now apply elem_of_nil in Hin.
  - destruct (decide (other = host)) as [|Hother]; [reflexivity|].
    apply elem_of_cons in Hin as [->|Hin]; [contradiction|auto].
Qed.

Lemma findCloudFrontDistribution_scan_found (host : string)
    (items : list DistributionSummary) (dist : DistributionSummary)
    (aliases : Counted string) :
  dist ∈ items -> ds_Aliases dist = Some aliases -> host ∈ Items aliases ->
  Forall (fun d => ds_Id d <> "") items ->
  findCloudFrontDistribution_scan host items <> "".
Proof.
  intros Hin Hal Hfd Hids. induction Hids as [|other items Hother Hids IH]; simpl.
  - now apply elem_of_nil in Hin.
  - apply elem_of_cons in Hin as [->|Hin].
    + now rewrite Hal, (findCloudFrontDistribution_aliases_found _ _ Hfd).
    + destruct (match ds_Aliases other with
                | Some found =>
                    findCloudFrontDistribution_aliases host (Items found)
                | None => false
                end); auto.
Qed.

Ltac assume_step :=
  cbn [wp bind call Println Printf];
  match goal with
  | |- forall r : Resp _, _ -> _ =>
      let r := fresh "r" in
      let Hd := fresh "Hd" in
      let Ha := fresh "Ha" in
      intros r [Hd Ha]; cbn in r; cbn [fully_deployed accepted] in Hd, Ha;
      try (match type of Hd with True => clear Hd end);
      try (match type of Ha with _ -> True => clear Ha end)
  | |- wp _ _ (match ?x with _ => _ end) => destruct x eqn:?
  | |- wp _ _ (bind (match ?x with _ => _ end) _) => destruct x eqn:?
  end.

Ltac assume := repeat assume_step; cbn [wp].

Ltac post :=
  split;
  [ repeat first [ apply no_create_cons; [reflexivity|]
                 | apply no_create_app; [assumption|] ];
    try reflexivity
  | let Hw := fresh "Hw" in
    intros Hw;
    repeat match goal with H : _ = true -> _ |- _ => specialize (H Hw) end;
    repeat match goal with H : exists _, _ |- _ => destruct H end;
    cbn in *; try discriminate; try reflexivity; auto ].

Section Deployed.

Variables (pm : PreviewManager) (w : bool).

Lemma deployed_post_cons {X : Type} (c : Call) (r : Resp c)
    (t : list Event) (v : result X) :
  is_create c = false -> deployed_post w t v -> deployed_post w (Ev c r :: t) v.
Proof. intros Hc [Hn Hv]. split; [now apply no_create_cons|exact Hv]. Qed.

(** Sequencing under the assumption: a step, then what Deploy does with its
    value and with its error. *)
Lemma deployed_seq {X Y : Type} (p : Prog (result X))
    (f : result X -> Prog (result Y)) :
  wp (deployed pm w) (deployed_post w) p ->
  (forall x, wp (deployed pm w) (deployed_post w) (f (Ok x))) ->
  (forall e, wp (deployed pm w) (fun t _ => no_create t) (f (Err e))) ->
  wp (deployed pm w) (deployed_post w) (bind p f).
Proof.
  intros Hp Hok Herr. apply wp_bind. eapply wp_mono; [|exact Hp].
  intros t1 [x|e] [Hn Hv].
  - eapply wp_mono; [|apply Hok]. intros t2 v [Hn2 Hv2].
    split; [now apply no_create_app|exact Hv2].
  - destruct w; [now specialize (Hv eq_refl)|].
    eapply wp_mono; [|apply Herr]. intros t2 v Hn2.
    split; [now apply no_create_app|discriminate].
Qed.

Lemma createS3Bucket_wp :
  wp (deployed pm w) (deployed_post w) (createS3Bucket pm).
Proof.
  unfold createS3Bucket. assume_step. assume_step.
  rewrite (Hd eq_refl). assume. post.
Qed.

Lemma syncFilesToS3_walk_wp (entries : list WalkEntry) (n : Z) :
  Forall (fun e => w = true -> we_err e = None) entries ->
  wp (deployed pm w) (deployed_post w) (syncFilesToS3_walk pm entries n).
Proof.
  intros H. revert n. induction H as [|e rest He Hrest IH]; intros n.
  - cbn. split; [reflexivity|auto].
  - cbn [syncFilesToS3_walk]. unfold syncFilesToS3_visit. assume.
    all: try (eapply wp_mono; [|apply IH]; intros t v Hpost;
              repeat (apply deployed_post_cons; [reflexivity|]); exact Hpost).
    all: post.
Qed.

Lemma syncFilesToS3_wp :
  wp (deployed pm w) (deployed_post w) (syncFilesToS3 pm).
Proof.
  unfold syncFilesToS3. assume_step. assume_step.
  match goal with
  | Ha : _ -> Forall _ ?entries |- _ =>
      apply wp_bind; eapply wp_mono;
      [|apply (syncFilesToS3_walk_wp entries 0);
        destruct w; [apply (Forall_impl _ _ _ (Ha eq_refl)); auto|];
        apply Forall_forall; discriminate]
  end.
  intros t1 [n|e] [Hn Hv]; assume; post.
Qed.

Lemma getOrCreateOAC_wp :
  wp (deployed pm w) (deployed_post w) (getOrCreateOAC pm).
Proof.
  unfold getOrCreateOAC. assume_step. assume_step.
  destruct Hd as (items & oac & -> & Hin & Hname).
  destruct (getOrCreateOAC_scan_found _ _ _ Hin Hname) as [found ->].
  assume. post.
Qed.

Lemma getOrCreateCloudFrontDistribution_wp (oacID : string) :
  wp (deployed pm w) (deployed_post w) (getOrCreateCloudFrontDistribution pm oacID).
Proof.
  unfold getOrCreateCloudFrontDistribution, findCloudFrontDistribution.
  assume_step. assume_step.
  destruct Hd as (items & dist & aliases & -> & Hin & Hal & Hfd & Hids).
  pose proof (findCloudFrontDistribution_scan_found _ _ _ _ Hin Hal Hfd Hids).
  assume; [contradiction|]. post.
Qed.

Lemma setBucketPolicyForOAC_wp (distributionID : string) :
  wp (deployed pm w) (deployed_post w) (setBucketPolicyForOAC pm distributionID).
Proof. unfold setBucketPolicyForOAC. assume; post. Qed.

Lemma invalidateCloudFrontCache_wp (distributionID : string) :
  wp (deployed pm w) (deployed_post w) (invalidateCloudFrontCache pm distributionID).
Proof. unfold invalidateCloudFrontCache. assume; post. Qed.

Lemma updateRoute53_wp (distributionID : string) :
  wp (deployed pm w) (deployed_post w) (updateRoute53 pm distributionID).
Proof.
  unfold updateRoute53, getHostedZoneID. assume; post.
Qed.

Lemma postGitHubComment_wp :
  wp (deployed pm w) (fun t _ => no_create t) (postGitHubComment pm).
Proof.
  unfold postGitHubComment. assume.
  all: repeat (apply no_create_cons; [reflexivity|]); reflexivity.
Qed.

Lemma Deploy_wp : wp (deployed pm w) (deployed_post w) (Deploy pm).
Proof.
  unfold Deploy. assume_step.
  eapply wp_mono;
    [intros t v Hpost; apply deployed_post_cons; [reflexivity|exact Hpost]|].
  repeat (apply deployed_seq;
          [ first [ apply createS3Bucket_wp | apply syncFilesToS3_wp
                  | apply getOrCreateOAC_wp
                  | apply getOrCreateCloudFrontDistribution_wp
                  | apply setBucketPolicyForOAC_wp
                  | apply invalidateCloudFrontCache_wp
                  | apply updateRoute53_wp ]
          | intros ?
          | intros ?; reflexivity ]).
  apply wp_bind. eapply wp_mono; [|apply postGitHubComment_wp].
  intros t1 [[]|e] Hn; assume; post.
Qed.

End Deployed.

(** C5 (as amended).  Where the check of the bucket succeeds and the one
    page that Deploy reads of each listing has the access-control entity of
    the derived name and a distribution with the hostname among its aliases
    (every distribution of the page with an id), in every run of Deploy,
    however far it gets, no bucket, no access-control entity and no
    distribution is created; and when the calls of the other steps are
    accepted the run succeeds. *)
Theorem Deploy_on_deployed_creates_nothing (o : Oracle) (h : list Event)
    (pm : PreviewManager) :
  obeys o (fully_deployed pm) ->
  existsb is_create (calls (run o h (Deploy pm)).1) = false /\
  (obeys o accepted -> (run o h (Deploy pm)).2 = Ok tt).
Proof.
  intros Hd. split.
  - assert (Ho : obeys o (deployed pm false)).
    { intros h' c. split; [apply Hd|discriminate]. }
    apply (wp_sound _ o _ Ho _ h (Deploy_wp pm false)).
  - intros Ha. assert (Ho : obeys o (deployed pm true)).
    { intros h' c. split; [apply Hd|intros _; apply Ha]. }
    destruct (wp_sound _ o _ Ho _ h (Deploy_wp pm true)) as [_ Hv].
    specialize (Hv eq_refl).
    destruct (run o h (Deploy pm)).2 as [[]|e]; [reflexivity|discriminate].
Qed.

(** The environment of pull request 42 after a deploy, with three files in
    the source directory. *)
Definition deployed_account : Oracle := fun h c =>
  match c as c' return Resp c' with
  | FilepathWalk _ =>
      [ {| we_path := "./dist"; we_IsDir := true; we_err := None |};
        {| we_path := "dist/app.js"; we_IsDir := false; we_err := None |};
        {| we_path := "dist/index.html"; we_IsDir := false; we_err := None |};
        {| we_path := "dist/logo.png"; we_IsDir := false; we_err := None |} ]
  | FilepathRel _ targpath =>
      Ok (String.substring 5 (String.length targpath - 5) targpath)
  | S3HeadBucket _ => Ok tt
  | CFListOriginAccessControls =>
      Ok (Some [ {| oac_Id := "E2OAC"; oac_Name := "OAC-pr-42-site" |} ])
  | CFListDistributions =>
      Ok (Some [ {| ds_Id := "E1DIST";
                    ds_Aliases :=
                      Some {| Quantity := 1;
                              Items := ["pr-42-site.example.test"] |} |} ])
  | R53ListHostedZonesByName _ =>
      Ok [ {| hz_Id := "/hostedzone/Z1ZONE"; hz_Name := "example.test." |} ]
  | c' => empty_account h c'
  end.

Lemma deployed_account_fully_deployed : obeys deployed_account (fully_deployed pm42).
Proof.
  intros h c. destruct c; cbn; try exact I.
  - reflexivity.
  - eexists _, _. split; [reflexivity|]. split; [apply list_elem_of_here|reflexivity].
  - eexists _, _, _. split; [reflexivity|]. split; [apply list_elem_of_here|].
    split; [reflexivity|]. split; [apply list_elem_of_here|].
    repeat constructor. discriminate.
Qed.

Lemma deployed_account_accepted : obeys deployed_account accepted.
Proof.
  intros h c. destruct c; cbn; try exact I; try reflexivity.
  - repeat constructor.
  - eexists _, _. reflexivity.
Qed.

(** The same environment at a moment when the check of the bucket is
    refused: [createS3Bucket] takes every error of HeadBucket for the
    absence of the bucket. *)
Definition deployed_check_forbidden : Oracle := fun h c =>
  match c as c' return Resp c' with
  | S3HeadBucket _ => Err "Forbidden"
  | c' => deployed_account h c'
  end.

(** The same environment in an account with more distributions than one
    page of the listing holds: the page that the one request of
    [findCloudFrontDistribution] gets has the distribution of another pull
    request, the distribution of pull request 42 is on a later page. *)
Definition deployed_past_first_page : Oracle := fun h c =>
  match c as c' return Resp c' with
  | CFListDistributions =>
      Ok (Some [ {| ds_Id := "E0DIST";
                    ds_Aliases :=
                      Some {| Quantity := 1;
                              Items := ["pr-7-site.example.test"] |} |} ])
  | c' => deployed_account h c'
  end.

(** ** The order of the steps of Deploy *)

(** One step of a pipeline, after the events [done] of the steps before it:
    its error, under the label of the step, ends the run; its value goes to
    the steps that follow. *)
Definition then_step {X Y : Type} (o : Oracle) (h done : list Event)
    (label : string) (step : Prog (result X))
    (next : list Event -> X -> list Event * result Y) : list Event * result Y :=
  let '(t, r) := run o (h ++ done) step in
  match r with
  | Err e => (done ++ t, Err (label +:+ e))
  | Ok x => next (done ++ t) x
  end.

(** Deploy as the specification words it: the eight steps in their order,
    the first failure ends the run, a failed notification is only logged. *)
Definition Deploy_in_order (o : Oracle) (h : list Event) (pm : PreviewManager)
  : list Event * result unit :=
  let start := Stdout ("Starting deployment..." +:+ nl) in
  then_step o h [Ev start (o h start)]
    "failed to create S3 bucket: " (createS3Bucket pm) (fun done _ =>
  then_step o h done
    "failed to sync files to S3: " (syncFilesToS3 pm) (fun done _ =>
  then_step o h done
    "failed to manage OAC: " (getOrCreateOAC pm) (fun done oacID =>
  then_step o h done
    "failed to manage CloudFront distribution: "
    (getOrCreateCloudFrontDistribution pm oacID) (fun done distributionID =>
  then_step o h done
    "failed to set bucket policy: "
    (setBucketPolicyForOAC pm distributionID) (fun done _ =>
  then_step o h done
    "failed to invalidate CloudFront cache: "
    (invalidateCloudFrontCache pm distributionID) (fun done _ =>
  then_step o h done
    "failed to update Route53: " (updateRoute53 pm distributionID) (fun done _ =>
  let '(t, r) := run o (h ++ done) (postGitHubComment pm) in
  match r with
  | Ok _ => (done ++ t, Ok tt)
  | Err e =>
      let warning :=
        Stdout ("Warning: Failed to post GitHub comment: " +:+ e +:+ nl) in
      (done ++ t ++ [Ev warning (o (h ++ done ++ t) warning)], Ok tt)
  end))))))).

Lemma run_then_step {X Y : Type} (o : Oracle) (h done : list Event)
    (label : string) (step : Prog (result X)) (f : result X -> Prog (result Y))
    (next : list Event -> X -> list Event * result Y) :
  (forall e, f (Err e) = Ret (Err (label +:+ e))) ->
  (forall t x,
     (let '(t', y) := run o (h ++ done ++ t) (f (Ok x)) in
      ((done ++ t) ++ t', y)) = next (done ++ t) x) ->
  (let '(t, y) := run o (h ++ done) (bind step f) in (done ++ t, y))
    = then_step o h done label step next.
Proof.
  intros Herr Hok. unfold then_step. rewrite run_bind.
  destruct (run o (h ++ done) step) as [t [x|e]].
  - rewrite <- Hok, <- app_assoc.
    destruct (run o (h ++ done ++ t) (f (Ok x))) as [t' y].
    now rewrite app_assoc.
  - rewrite Herr. simpl. now rewrite app_nil_r.
Qed.

(** C6.  Every run of Deploy is the run of its eight steps in the fixed
    order: bucket, content, access control, distribution, bucket policy,
    invalidation, DNS, notification.  The first of the first seven steps
    that fails ends the run, which returns that error under the name of the
    step; a failed notification is logged and the run returns success. *)
Theorem Deploy_runs_in_order (o : Oracle) (h : list Event) (pm : PreviewManager) :
  run o h (Deploy pm) = Deploy_in_order o h pm.
Proof.
  unfold Deploy, Deploy_in_order, Println, call. cbn [bind run].
  set (start := Ev (Stdout ("Starting deployment..." +:+ nl)) _).
  change (start :: ?t) with ([start] ++ t).
  repeat match goal with
         | |- _ = then_step _ _ ?done _ _ _ =>
             apply (run_then_step o h done);
             [reflexivity|intros ? ?; cbv beta iota]
         end.
  rewrite run_bind.
  match goal with
  | |- context [run o ?h' (postGitHubComment pm)] =>
      destruct (run o h' (postGitHubComment pm)) as [t' [[]|e]]
  end;
    cbn [run bind Printf call]; rewrite ?app_nil_r, <- ?app_assoc; reflexivity.
Qed.

(** ** Cleanup of an environment that is not there *)

(** The calls that change a resource of the provider. *)
Definition modifies (c : Call) : bool :=
  match c with
  | S3CreateBucket _ _ | S3PutObject _ _ _ _ | S3PutBucketPolicy _ _
  | S3DeleteObjects _ _ | S3DeleteBucket _
  | CFCreateOriginAccessControl _ | CFCreateDistribution _
  | CFUpdateDistribution _ _ _ | CFDeleteDistribution _ _
  | CFCreateInvalidation _ _ _
  | R53ChangeResourceRecordSets _ _ _ => true
  | _ => false
  end.

(** The environment has no resource: the distributions are listed and none
    has the hostname as an alias, a list of records does not start with a
    record of the hostname, and the check of the bucket fails. *)
Definition nothing_deployed (pm : PreviewManager) (c : Call) : Resp c -> Prop :=
  match c as c' return Resp c' -> Prop with
  | CFListDistributions => fun r =>
      r = Ok None \/
      exists items,
        r = Ok (Some items) /\
        forall dist aliases,
          dist ∈ items -> ds_Aliases dist = Some aliases ->
          fullDomain pm ∉ Items aliases
  | R53ListResourceRecordSets _ _ _ _ => fun r =>
      forall recordSet rest,
        r = Ok (recordSet :: rest) -> rr_Name recordSet <> fullDomain pm +:+ "."
  | S3HeadBucket Bucket => fun r => Bucket = bucketName pm -> is_ok r = false
  | _ => fun _ => True
  end.

Lemma findCloudFrontDistribution_aliases_absent (host : string)
    (aliases : list string) :
  host ∉ aliases -> findCloudFrontDistribution_aliases host aliases = false.
Proof.
  induction aliases as [|other aliases IH]; simpl; [reflexivity|].
  intros Hnot. destruct (decide (other = host)) as [->|_].
  - destruct Hnot. apply list_elem_of_here.
  - apply IH. intros Hin. apply Hnot. now apply list_elem_of_further.
Qed.

Lemma findCloudFrontDistribution_scan_absent (host : string)
    (items : list DistributionSummary) :
  (forall dist aliases,
     dist ∈ items -> ds_Aliases dist = Some aliases -> host ∉ Items aliases) ->
  findCloudFrontDistribution_scan host items = "".
Proof.
  induction items as [|dist items IH]; simpl; [reflexivity|].
  intros Hnone. destruct (ds_Aliases dist) as [aliases|] eqn:Hal.
  - rewrite (findCloudFrontDistribution_aliases_absent host (Items aliases)).
    + apply IH. intros d a Hd. apply Hnone. now apply list_elem_of_further.
    + apply (Hnone dist); [apply list_elem_of_here|exact Hal].
  - apply IH. intros d a Hd. apply Hnone. now apply list_elem_of_further.
Qed.

Ltac absent_step :=
  cbn [wp bind call Println Printf];
  match goal with
  | |- forall r : Resp _, _ -> _ =>
      let r := fresh "r" in
      let Hr := fresh "Hr" in
      intros r Hr; cbn in r; cbn [nothing_deployed] in Hr;
      try (match type of Hr with True => clear Hr end)
  | |- wp _ _ (match ?x with _ => _ end) => destruct x eqn:?
  | |- wp _ _ (bind (match ?x with _ => _ end) _) => destruct x eqn:?
  end.

Ltac absent := repeat absent_step; cbn [wp].

Section Absent.

Variables (fuel : nat) (pm : PreviewManager).

Lemma findCloudFrontDistribution_absent :
  wp (nothing_deployed pm) (fun t r => avoids modifies t /\ r = Ok "")
    (findCloudFrontDistribution pm).
Proof.
  unfold findCloudFrontDistribution. absent_step.
  destruct Hr as [->|(items & -> & Hnone)]; cbn [wp].
  - split; reflexivity.
  - rewrite (findCloudFrontDistribution_scan_absent _ _ Hnone). split; reflexivity.
Qed.

Lemma deleteRoute53Record_absent :
  wp (nothing_deployed pm) (fun t _ => avoids modifies t) (deleteRoute53Record pm).
Proof.
  unfold deleteRoute53Record, getHostedZoneID. absent; try reflexivity.
  all: exfalso; eapply Hr; eauto.
Qed.

Lemma deleteS3Bucket_absent :
  wp (nothing_deployed pm) (fun t r => avoids modifies t /\ r = Some (Ok tt))
    (deleteS3Bucket fuel pm).
Proof.
  unfold deleteS3Bucket. absent_step. absent_step.
  match goal with
  | Hr : _ -> is_ok ?r = false |- _ =>
      specialize (Hr eq_refl); destruct r; [discriminate|]
  end.
  absent. split; reflexivity.
Qed.

Lemma postCleanupGitHubComment_quiet :
  wp any (fun t _ => avoids modifies t) (postCleanupGitHubComment pm).
Proof. unfold postCleanupGitHubComment. exec; reflexivity. Qed.

Lemma Cleanup_absent :
  wp (nothing_deployed pm) (fun t r => avoids modifies t /\ r = Some (Ok tt))
    (Cleanup fuel pm).
Proof.
  unfold Cleanup. absent_step.
  eapply wp_seq; [apply findCloudFrontDistribution_absent|].
  intros t1 found [H1 ->]. cbv beta iota.
  destruct (decide ("" = "")) as [_|]; [|contradiction]. absent_step.
  eapply wp_seq; [apply deleteRoute53Record_absent|].
  intros t2 record H2. cbv beta.
  eapply (wp_seq _ _ _ (fun t _ => avoids modifies t)); [destruct record; absent; reflexivity|].
  intros t3 _ H3. cbv beta.
  eapply wp_seq; [apply deleteS3Bucket_absent|].
  intros t4 bucket [H4 ->]. cbv beta iota.
  eapply wp_seq; [apply wp_weaken, postCleanupGitHubComment_quiet|].
  intros t5 comment H5. cbv beta.
  destruct comment; absent; (split; [avoided|reflexivity]).
Qed.

End Absent.

(** C7.  When the environment has no resource, every run of Cleanup returns
    success, and it changes nothing at the provider. *)
Theorem Cleanup_of_nothing_succeeds (o : Oracle) (h : list Event) (fuel : nat)
    (pm : PreviewManager) :
  obeys o (nothing_deployed pm) ->
  (run o h (Cleanup fuel pm)).2 = Some (Ok tt) /\
  existsb modifies (calls (run o h (Cleanup fuel pm)).1) = false.
Proof.
  intros Ho.
  destruct (wp_sound _ o _ Ho _ h (Cleanup_absent fuel pm)) as [Hn Hr].
  split; [exact Hr|exact Hn].
Qed.

Lemma empty_account_nothing_deployed : obeys empty_account (nothing_deployed pm42).
Proof.
  intros h c. destruct c; cbn; try exact I.
  - reflexivity.
  - right. exists []. split; [reflexivity|]. intros dist aliases Hin.
    now apply elem_of_nil in Hin.
  - discriminate.
Qed.

Lemma Cleanup_of_nothing_succeeds_witness :
  (run empty_account [] (Cleanup 0 pm42)).2 = Some (Ok tt) /\
  existsb modifies (calls (run empty_account [] (Cleanup 0 pm42)).1) = false.
Proof.
  exact (Cleanup_of_nothing_succeeds empty_account [] 0 pm42
           empty_account_nothing_deployed).
Defined.

(** ** Cleanup when the check of the bucket fails *)

(** The check of the bucket of the environment fails, for whatever reason. *)
Definition existence_check_fails (pm : PreviewManager) (c : Call)
  : Resp c -> Prop :=
  match c as c' return Resp c' -> Prop with
  | S3HeadBucket Bucket => fun r => Bucket = bucketName pm -> is_ok r = false
  | _ => fun _ => True
  end.

(** The calls with which [deleteS3Bucket] lists, empties and deletes. *)
Definition empties_bucket (c : Call) : bool :=
  match c with
  | S3ListObjectsV2 _ _ | S3DeleteObjects _ _ | S3DeleteBucket _ => true
  | _ => false
  end.

(** Cleanup has succeeded, or has failed on the distribution, before the
    step of the bucket. *)
Definition success_or_distribution_error (r : option (result unit)) : Prop :=
  r = Some (Ok tt) \/
  (exists e, r = Some (Err ("failed to find distribution: " +:+ e))) \/
  (exists e, r = Some (Err ("failed to delete CloudFront distribution: " +:+ e))).

Section CheckFails.

Variables (fuel : nat) (pm : PreviewManager).

Lemma findCloudFrontDistribution_keeps_bucket :
  wp any (fun t _ => avoids empties_bucket t) (findCloudFrontDistribution pm).
Proof. unfold findCloudFrontDistribution. exec; reflexivity. Qed.

Lemma deleteCloudFrontDistribution_keeps_bucket (Id : string) :
  wp any (fun t _ => avoids empties_bucket t) (deleteCloudFrontDistribution pm Id).
Proof. unfold deleteCloudFrontDistribution. exec; reflexivity. Qed.

Lemma deleteRoute53Record_keeps_bucket :
  wp any (fun t _ => avoids empties_bucket t) (deleteRoute53Record pm).
Proof. unfold deleteRoute53Record, getHostedZoneID. exec; reflexivity. Qed.

Lemma postCleanupGitHubComment_keeps_bucket :
  wp any (fun t _ => avoids empties_bucket t) (postCleanupGitHubComment pm).
Proof. unfold postCleanupGitHubComment. exec; reflexivity. Qed.

Lemma deleteS3Bucket_check_fails :
  wp (existence_check_fails pm)
    (fun t r =>
       r = Some (Ok tt) /\
       exists e,
         t = [ Ev (Stdout ("Deleting S3 bucket: " +:+ bucketName pm +:+ nl)) tt;
               Ev (S3HeadBucket (bucketName pm)) (Err e);
               Ev (Stdout ("  Bucket does not exist" +:+ nl)) tt ])
    (deleteS3Bucket fuel pm).
Proof.
  unfold deleteS3Bucket. cbn [wp bind call Println Printf].
  intros [] _ head Hhead. cbn in head, Hhead. specialize (Hhead eq_refl).
  destruct head as [|e]; [discriminate|]. cbn [wp bind call Println Printf].
  intros [] _. split; [reflexivity|]. exists e. reflexivity.
Qed.

Lemma Cleanup_check_fails :
  wp (existence_check_fails pm)
    (fun t r => avoids empties_bucket t /\ success_or_distribution_error r)
    (Cleanup fuel pm).
Proof.
  unfold Cleanup. cbn [wp bind call Println Printf]. intros start _.
  eapply wp_seq; [apply wp_weaken, findCloudFrontDistribution_keeps_bucket|].
  intros t1 [distributionID|e] H1; cbv beta iota; cbn [wp];
    [|split; [avoided|right; left; eauto]].
  eapply (wp_seq _ _ _ (fun t _ => avoids empties_bucket t)).
  { destruct (decide (distributionID = "")).
    - apply wp_weaken. exec. reflexivity.
    - apply wp_weaken, deleteCloudFrontDistribution_keeps_bucket. }
  intros t2 [[]|e] H2; cbv beta iota; cbn [wp];
    [|split; [avoided|right; right; eauto]].
  eapply wp_seq; [apply wp_weaken, deleteRoute53Record_keeps_bucket|].
  intros t3 record H3. cbv beta.
  eapply (wp_seq _ _ _ (fun t _ => avoids empties_bucket t));
    [destruct record; apply wp_weaken; exec; reflexivity|].
  intros t4 _ H4. cbv beta.
  eapply wp_seq; [apply deleteS3Bucket_check_fails|].
  intros t5 bucket [-> [e ->]]. cbv beta iota.
  eapply wp_seq; [apply wp_weaken, postCleanupGitHubComment_keeps_bucket|].
  intros t6 comment H6. cbv beta.
  destruct comment; apply wp_weaken; exec; (split; [avoided|left; reflexivity]).
Qed.

End CheckFails.

(** C10.  When the check of the bucket fails, for whatever reason,
    [deleteS3Bucket] reports that the bucket does not exist and returns
    success after that one call; Cleanup then calls neither the listing nor
    a deletion of objects or bucket, and unless it has failed on the
    distribution before, it returns success. *)
Theorem deleteS3Bucket_takes_any_error_for_absence (o : Oracle) (h : list Event)
    (fuel : nat) (pm : PreviewManager) :
  obeys o (existence_check_fails pm) ->
  (exists e,
     run o h (deleteS3Bucket fuel pm) =
       ( [ Ev (Stdout ("Deleting S3 bucket: " +:+ bucketName pm +:+ nl)) tt;
           Ev (S3HeadBucket (bucketName pm)) (Err e);
           Ev (Stdout ("  Bucket does not exist" +:+ nl)) tt ],
         Some (Ok tt) )) /\
  existsb empties_bucket (calls (run o h (Cleanup fuel pm)).1) = false /\
  success_or_distribution_error (run o h (Cleanup fuel pm)).2.
Proof.
  intros Ho. split.
  - destruct (wp_sound _ o _ Ho _ h (deleteS3Bucket_check_fails fuel pm))
      as [Hr [e Ht]].
    exists e. destruct (run o h (deleteS3Bucket fuel pm)) as [t r].
    simpl in *. now subst.
  - exact (wp_sound _ o _ Ho _ h (Cleanup_check_fails fuel pm)).
Qed.

(** The deployed environment of pull request 42 at a moment when the check
    of the bucket is refused. *)
Definition bucket_check_throttled : Oracle := fun h c =>
  match c as c' return Resp c' with
  | S3HeadBucket _ => Err "SlowDown"
  | c' => deployed_account h c'
  end.

Lemma bucket_check_throttled_fails :
  obeys bucket_check_throttled (existence_check_fails pm42).
Proof. intros h c. destruct c; cbn; try exact I. reflexivity. Qed.

Lemma deleteS3Bucket_takes_any_error_for_absence_witness :
  existsb empties_bucket
    (calls (run bucket_check_throttled [] (Cleanup 8 pm42)).1) = false /\
  (run bucket_check_throttled [] (Cleanup 8 pm42)).2 = Some (Ok tt).
Proof.
  destruct (deleteS3Bucket_takes_any_error_for_absence bucket_check_throttled
              [] 8 pm42 bucket_check_throttled_fails) as (_ & Hnone & _).
  split; [exact Hnone|reflexivity].
Defined.

(** * Further properties of the code *)

(** ** Strings as lists of bytes *)

Lemma list_ascii_of_string_app (a b : string) :
  list_ascii_of_string (a +:+ b) = list_ascii_of_string a ++ list_ascii_of_string b.
Proof. induction a as [|x a IH]; simpl; [reflexivity|now rewrite IH]. Qed.

Lemma string_of_list_ascii_app (a b : list ascii) :
  string_of_list_ascii (a ++ b) = string_of_list_ascii a +:+ string_of_list_ascii b.
Proof. induction a as [|x a IH]; simpl; [reflexivity|now rewrite IH]. Qed.

Lemma append_inv_tail (a b s : string) : a +:+ s = b +:+ s -> a = b.
Proof.
  intros H. apply (f_equal list_ascii_of_string) in H.
  rewrite !list_ascii_of_string_app in H. apply app_inv_tail in H.
  rewrite <- (string_of_list_ascii_of_string a), <- (string_of_list_ascii_of_string b).
  now rewrite H.
Qed.

(** ** The extension of a file name *)

Definition plain (c : ascii) : bool :=
  negb (bool_decide (c = "."%char)) && negb (IsPathSeparator c).

Lemma Ext_loop_separator (before after suffix : list ascii) :
  Ext_loop (before ++ "/"%char :: after) suffix = Ext_loop before suffix.
Proof.
  revert suffix. induction before as [|c before IH]; intros suffix; simpl.
  - reflexivity.
  - destruct (IsPathSeparator c); [reflexivity|].
    destruct (bool_decide (c = "."%char)); [reflexivity|apply IH].
Qed.

Lemma Ext_loop_shape (rev_prefix suffix : list ascii) :
  forallb plain suffix = true ->
  exists stem ext,
    rev rev_prefix ++ suffix = stem ++ list_ascii_of_string ext /\
    Ext_loop rev_prefix suffix = ext /\
    (ext = "" \/
     exists rest, ext = String "."%char rest /\
                  forallb plain (list_ascii_of_string rest) = true).
Proof.
  revert suffix. induction rev_prefix as [|c rest IH]; intros suffix Hs; simpl.
  - exists suffix, "". rewrite app_nil_r. auto.
  - destruct (IsPathSeparator c) eqn:Hsep.
    + exists (rev rest ++ c :: suffix), "". rewrite app_nil_r, <- app_assoc. auto.
    + destruct (bool_decide (c = "."%char)) eqn:Hdot.
      * apply bool_decide_eq_true in Hdot as ->.
        exists (rev rest), (String "."%char (string_of_list_ascii suffix)).
        simpl. rewrite list_ascii_of_string_of_list_ascii, <- app_assoc.
        repeat split. right. eexists. split; [reflexivity|].
        now rewrite list_ascii_of_string_of_list_ascii.
      * destruct (IH (c :: suffix)) as (stem & ext & Heq & Hext & Hshape).
        { simpl. unfold plain at 1. now rewrite Hdot, Hsep. }
        exists stem, ext. rewrite <- app_assoc. auto.
Qed.

(** What [filepath.Ext] returns is a suffix of the path; it is empty, or it
    starts with a dot and has no other dot and no separator. *)
Lemma filepath_Ext_is_last_dot_suffix (path : string) :
  exists stem,
    path = stem +:+ filepath_Ext path /\
    (filepath_Ext path = "" \/
     exists rest, filepath_Ext path = String "."%char rest /\
                  forallb plain (list_ascii_of_string rest) = true).
Proof.
  unfold filepath_Ext.
  destruct (Ext_loop_shape (rev (list_ascii_of_string path)) [] eq_refl)
    as (stem & ext & Heq & -> & Hshape).
  rewrite rev_involutive, app_nil_r in Heq. exists (string_of_list_ascii stem).
  split; [|exact Hshape].
  rewrite <- (string_of_list_ascii_of_string path), Heq, string_of_list_ascii_app.
  now rewrite string_of_list_ascii_of_string.
Qed.

(** X1.  The content type of a file does not depend on the directories of
    its path, dotted or not. *)
Theorem getContentType_ignores_directories (dir name : string) :
  getContentType (dir +:+ "/" +:+ name) = getContentType name.
Proof.
  unfold getContentType, filepath_Ext.
  rewrite !list_ascii_of_string_app. simpl.
  rewrite rev_app_distr. simpl. rewrite <- app_assoc. simpl.
  now rewrite Ext_loop_separator.
Qed.

Lemma lower_byte_plain (c : ascii) :
  bool_decide (lower_byte c = "."%char) = bool_decide (c = "."%char) /\
  IsPathSeparator (lower_byte c) = IsPathSeparator c.
Proof. destruct c as [[] [] [] [] [] [] [] []]; vm_compute; auto. Qed.

Lemma lower_bytes_list (l : list ascii) :
  lower_bytes (string_of_list_ascii l) = string_of_list_ascii (map lower_byte l).
Proof. induction l as [|c l IH]; simpl; [reflexivity|now rewrite IH]. Qed.

Lemma list_ascii_of_lower_bytes (s : string) :
  list_ascii_of_string (lower_bytes s) = map lower_byte (list_ascii_of_string s).
Proof. induction s as [|c s IH]; simpl; [reflexivity|now rewrite IH]. Qed.

Lemma Ext_loop_lower (rev_prefix suffix : list ascii) :
  Ext_loop (map lower_byte rev_prefix) (map lower_byte suffix)
    = lower_bytes (Ext_loop rev_prefix suffix).
Proof.
  revert suffix. induction rev_prefix as [|c rest IH]; intros suffix; simpl.
  - reflexivity.
  - destruct (lower_byte_plain c) as (-> & ->).
    destruct (IsPathSeparator c); [reflexivity|].
    destruct (bool_decide (c = "."%char)).
    + simpl. now rewrite lower_bytes_list.
    + apply (IH (c :: suffix)).
Qed.

(** Lowering the bytes of a name lowers the bytes of its extension. *)
Lemma filepath_Ext_lower_bytes (filename : string) :
  filepath_Ext (lower_bytes filename) = lower_bytes (filepath_Ext filename).
Proof.
  unfold filepath_Ext. rewrite list_ascii_of_lower_bytes, <- map_rev.
  apply (Ext_loop_lower _ []).
Qed.

Lemma isASCII_app (a b : string) :
  isASCII (a +:+ b) = (isASCII a && isASCII b)%bool.
Proof.
  induction a as [|c a IH]; simpl; [reflexivity|].
  now rewrite IH, andb_assoc.
Qed.

Lemma isASCII_filepath_Ext (filename : string) :
  isASCII filename = true -> isASCII (filepath_Ext filename) = true.
Proof.
  destruct (filepath_Ext_is_last_dot_suffix filename) as (stem & Heq & _).
  intros H. rewrite Heq, isASCII_app in H.
  now apply andb_true_iff in H as [_ H].
Qed.

(** Two bytes are one letter when they are equal or the two cases of one of
    the letters a-z. *)
Definition same_letter (a c : ascii) : bool :=
  (letter_of a c || letter_of c a)%bool.

(** Two names that differ at most in the case of their letters. *)
Fixpoint same_spelling (s1 s2 : string) : bool :=
  match s1, s2 with
  | EmptyString, EmptyString => true
  | String a s1', String c s2' => (same_letter a c && same_spelling s1' s2')%bool
  | _, _ => false
  end.

Lemma same_letter_lower (a c : ascii) :
  is_ascii a = true -> same_letter a c = true ->
  is_ascii c = true /\ lower_byte a = lower_byte c.
Proof.
  revert a c.
  assert (H : forall lower c,
             letter_of lower c = true ->
             (is_ascii lower = true <-> is_ascii c = true) /\
             lower_byte lower = lower_byte c).
  { intros lower c H. unfold letter_of in H.
    apply orb_true_iff in H as [H|H].
    - apply Ascii.eqb_eq in H as ->. tauto.
    - apply andb_true_iff in H as [H Heq]. apply andb_true_iff in H as [Hlo Hhi].
      apply Nat.leb_le in Hlo, Hhi. apply Nat.eqb_eq in Heq.
      assert (Hl : is_upper lower = false).
      { unfold is_upper. apply andb_false_iff. right. apply Nat.leb_gt. lia. }
      assert (Hc : is_upper c = true).
      { unfold is_upper. apply andb_true_iff. split; apply Nat.leb_le; lia. }
      split.
      + unfold is_ascii. split; intros _; apply Nat.ltb_lt; lia.
      + unfold lower_byte. rewrite Hl, Hc, Heq. symmetry. apply ascii_nat_embedding. }
  intros a c Ha Hs. unfold same_letter in Hs.
  apply orb_true_iff in Hs as [Hs|Hs]; destruct (H _ _ Hs) as [Hiff Heq].
  - split; [now apply Hiff|exact Heq].
  - split; [now apply Hiff|now symmetry].
Qed.

Lemma same_spelling_lower (s1 s2 : string) :
  isASCII s1 = true -> same_spelling s1 s2 = true ->
  isASCII s2 = true /\ lower_bytes s1 = lower_bytes s2.
Proof.
  revert s2. induction s1 as [|a s1 IH]; intros [|c s2]; simpl;
    try discriminate; [auto|].
  intros [Ha H1]%andb_true_iff [Hc Hs]%andb_true_iff.
  destruct (same_letter_lower a c Ha Hc) as [-> ->].
  destruct (IH s2 H1 Hs) as [-> ->]. auto.
Qed.

(** The content type of a name of ASCII bytes is the entry for the
    extension of the name with its bytes lowered. *)
Lemma getContentType_ascii (filename : string) :
  isASCII filename = true ->
  getContentType filename =
    match contentTypes !! filepath_Ext (lower_bytes filename) with
    | Some ct => ct
    | None => "application/octet-stream"
    end.
Proof.
  intros H. unfold getContentType.
  now rewrite (strings_ToLower_ascii _ (isASCII_filepath_Ext _ H)),
    filepath_Ext_lower_bytes.
Qed.

(** X2.  Among file names of ASCII bytes the content type does not depend
    on the case of any letter of the name: two names that differ only in the
    case of their letters have the same content type. *)
Theorem getContentType_ignores_case (name1 name2 : string) :
  isASCII name1 = true -> same_spelling name1 name2 = true ->
  getContentType name1 = getContentType name2.
Proof.
  intros H1 Hs. destruct (same_spelling_lower name1 name2 H1 Hs) as [H2 Heq].
  now rewrite (getContentType_ascii _ H1), (getContentType_ascii _ H2), Heq.
Qed.

(** ** Hostnames *)

(** X3.  Under one base domain two environments with the same hostname have
    the same pull-request number and the same application name. *)
Theorem fullDomain_is_injective (c1 c2 : Config) (token1 token2 : string) :
  BaseDomain c1 = BaseDomain c2 ->
  fullDomain (newPreviewManager c1 token1) = fullDomain (newPreviewManager c2 token2) ->
  PRNumber c1 = PRNumber c2 /\ AppName c1 = AppName c2.
Proof.
  simpl. intros -> H. injection H as H. apply append_inv_tail in H.
  now apply fmt_d_dash_inj in H.
Qed.

Lemma fullDomain_is_injective_witness :
  PRNumber cfg42 = 42 /\ AppName cfg42 = "site".
Proof.
  apply (fullDomain_is_injective cfg42
           {| PRNumber := 42; AppName := "site"; Region := "eu-west-1";
              BaseDomain := "example.test"; CertificateARN := "";
              SourcePath := "./build"; Action := "cleanup";
              RepoOwner := "octo"; RepoName := "preview" |} "" "token");
    reflexivity.
Defined.

(** ** The id of the hosted zone *)

(** [strings.Join(parts, "/")]. *)
Fixpoint strings_Join_slash (parts : list string) : string :=
  match parts with
  | [] => ""
  | part :: rest =>
      match rest with
      | [] => part
      | _ :: _ => part +:+ "/" +:+ strings_Join_slash rest
      end
  end.

Definition no_slash (s : string) : Prop :=
  forallb (fun c => negb (IsPathSeparator c)) (list_ascii_of_string s) = true.

Lemma strings_Split_slash_nonempty (s : string) : strings_Split_slash s <> [].
Proof.
  induction s as [|c s IH]; simpl; [discriminate|].
  destruct (strings_Split_slash s); [discriminate|].
  destruct (bool_decide (c = "/"%char)); discriminate.
Qed.

Lemma strings_Join_Split_slash (s : string) :
  strings_Join_slash (strings_Split_slash s) = s.
Proof.
  induction s as [|c s IH]; simpl; [reflexivity|].
  destruct (strings_Split_slash s) as [|part parts] eqn:Hs.
  - now destruct (strings_Split_slash_nonempty s).
  - destruct (bool_decide (c = "/"%char)) eqn:Hc.
    + apply bool_decide_eq_true in Hc as ->.
      change (strings_Join_slash ("" :: part :: parts))
        with ("" +:+ "/" +:+ strings_Join_slash (part :: parts)).
      now rewrite IH.
    + destruct parts as [|next parts].
      * simpl in *. now rewrite IH.
      * change (strings_Join_slash (String c part :: next :: parts))
          with (String c (part +:+ "/" +:+ strings_Join_slash (next :: parts))).
        change (strings_Join_slash (part :: next :: parts))
          with (part +:+ "/" +:+ strings_Join_slash (next :: parts)) in IH.
        now rewrite IH.
Qed.

Lemma strings_Split_slash_parts (s : string) :
  Forall no_slash (strings_Split_slash s).
Proof.
  induction s as [|c s IH]; simpl; [repeat constructor|].
  destruct (strings_Split_slash s) as [|part parts] eqn:Hs;
    [|inversion IH; subst].
  - now destruct (strings_Split_slash_nonempty s).
  - destruct (bool_decide (c = "/"%char)) eqn:Hc.
    + constructor; [reflexivity|now constructor].
    + constructor; [|assumption]. unfold no_slash in *. simpl.
      unfold IsPathSeparator at 1. now rewrite Hc.
Qed.

Lemma strings_Join_slash_last (parts : list string) :
  parts <> [] ->
  exists prefix,
    strings_Join_slash parts = prefix +:+ List.last parts "" /\
    (prefix = "" \/ exists p, prefix = p +:+ "/").
Proof.
  induction parts as [|part rest IH]; [contradiction|]. intros _.
  destruct rest as [|next rest].
  - exists "". split; [reflexivity|now left].
  - destruct IH as (prefix & Hj & Hp); [discriminate|].
    exists (part +:+ "/" +:+ prefix).
    change (strings_Join_slash (part :: next :: rest))
      with (part +:+ "/" +:+ strings_Join_slash (next :: rest)).
    change (List.last (part :: next :: rest) "") with (List.last (next :: rest) "").
    rewrite Hj, !append_assoc'. split; [reflexivity|]. right.
    destruct Hp as [->|[p ->]].
    + exists part. now rewrite append_nil_r.
    + exists (part +:+ "/" +:+ p). now rewrite !append_assoc'.
Qed.

Lemma getHostedZoneID_wp (pm : PreviewManager) :
  wp any
    (fun t r =>
       forall id, r = Ok id ->
       no_slash id /\
       exists zone zones prefix,
         api t = [ Ev (R53ListHostedZonesByName (BaseDomain (cfg pm)))
                     (Ok (zone :: zones)) ] /\
         hz_Id zone = prefix +:+ id /\
         (prefix = "" \/ exists p, prefix = p +:+ "/"))
    (getHostedZoneID pm).
Proof.
  unfold getHostedZoneID. exec; intros id [= <-].
  match goal with |- context [hz_Id ?z] => rename z into zone end.
  split.
  - pose proof (strings_Split_slash_parts (hz_Id zone)) as Hall.
    pose proof (strings_Split_slash_nonempty (hz_Id zone)) as Hne.
    destruct (strings_Split_slash (hz_Id zone)) as [|p ps]; [contradiction|].
    clear Hne. revert p Hall. induction ps as [|p' ps IH]; intros p Hall.
    + now inversion Hall.
    + inversion Hall; subst. now apply IH.
  - destruct (strings_Join_slash_last (strings_Split_slash (hz_Id zone))
                (strings_Split_slash_nonempty _)) as (prefix & Hj & Hp).
    rewrite strings_Join_Split_slash in Hj. eexists _, _, prefix.
    split; [reflexivity|]. split; assumption.
Qed.

(** X4.  The zone id that [getHostedZoneID] returns is the part of the id of
    the first listed zone after its last slash: it has no slash, and the
    provider's id is a prefix, empty or ending in a slash, followed by it. *)
Theorem getHostedZoneID_strips_path (o : Oracle) (h : list Event)
    (pm : PreviewManager) (id : string) :
  (run o h (getHostedZoneID pm)).2 = Ok id ->
  no_slash id /\
  exists zone zones prefix,
    api (run o h (getHostedZoneID pm)).1 =
      [ Ev (R53ListHostedZonesByName (BaseDomain (cfg pm))) (Ok (zone :: zones)) ] /\
    hz_Id zone = prefix +:+ id /\
    (prefix = "" \/ exists p, prefix = p +:+ "/").
Proof.
  exact (wp_sound any o _ (obeys_any o) _ h (getHostedZoneID_wp pm) id).
Qed.

Lemma getHostedZoneID_strips_path_witness :
  no_slash "Z1ZONE" /\
  exists zone zones prefix,
    api (run deployed_account [] (getHostedZoneID pm42)).1 =
      [ Ev (R53ListHostedZonesByName (BaseDomain (cfg pm42))) (Ok (zone :: zones)) ] /\
    hz_Id zone = prefix +:+ "Z1ZONE" /\
    (prefix = "" \/ exists p, prefix = p +:+ "/").
Proof.
  apply (getHostedZoneID_strips_path deployed_account [] pm42 "Z1ZONE").
  reflexivity.
Defined.

(** ** The bucket *)

(** The runs of [createS3Bucket], by their calls and their result. *)
Definition createS3Bucket_outcome (pm : PreviewManager) (t : list Event)
    (r : result unit) : Prop :=
  let head := S3HeadBucket (bucketName pm) in
  (api t = [ Ev head (Ok tt) ] /\ r = Ok tt) \/
  (exists e location answer,
     api t = [ Ev head (Err e);
               Ev (S3CreateBucket (bucketName pm) location) answer ] /\
     (location = None <-> Region (cfg pm) = "us-east-1") /\
     (forall region, location = Some region -> region = Region (cfg pm)) /\
     r = match answer with
         | Ok _ => Ok tt
         | Err e' => Err ("failed to create bucket: " +:+ e')
         end).

Lemma createS3Bucket_outcome_wp (pm : PreviewManager) :
  wp any (createS3Bucket_outcome pm) (createS3Bucket pm).
Proof.
  unfold createS3Bucket, createS3Bucket_outcome.
  exec; units; cbn [api List.filter ev_call is_Stdout negb].
  - left. split; reflexivity.
  - right. eexists _, _, (Ok tt). split; [reflexivity|].
    destruct (decide (Region (cfg pm) = "us-east-1")) as [Heq|Hne];
      repeat split; try congruence; try discriminate.
  - right. eexists _, _, (Err _). split; [reflexivity|].
    destruct (decide (Region (cfg pm) = "us-east-1")) as [Heq|Hne];
      repeat split; try congruence; try discriminate.
Qed.

(** X5.  [createS3Bucket] asks for the creation of the bucket exactly when
    the check of the bucket has failed, for whatever reason; the request
    names a location, the configured region, exactly when that region is
    not us-east-1. *)
Theorem createS3Bucket_creates_after_failed_check (o : Oracle) (h : list Event)
    (pm : PreviewManager) :
  createS3Bucket_outcome pm
    (run o h (createS3Bucket pm)).1 (run o h (createS3Bucket pm)).2.
Proof.
  exact (wp_sound any o _ (obeys_any o) _ h (createS3Bucket_outcome_wp pm)).
Qed.

(** ** The access-control entity *)

Lemma getOrCreateOAC_scan_first (oacName : string)
    (items : list OriginAccessControlSummary) :
  match getOrCreateOAC_scan oacName items with
  | Some oac =>
      exists before after,
        items = before ++ oac :: after /\ oac_Name oac = oacName /\
        Forall (fun other => oac_Name other <> oacName) before
  | None => Forall (fun other => oac_Name other <> oacName) items
  end.
Proof.
  induction items as [|other items IH]; simpl; [constructor|].
  destruct (decide (oac_Name other = oacName)) as [Heq|Hne].
  - exists [], items. repeat split; [assumption|constructor].
  - destruct (getOrCreateOAC_scan oacName items) as [oac|].
    + destruct IH as (before & after & -> & Hname & Hbefore).
      exists (other :: before), after. repeat split; [assumption|].
      now constructor.
    + now constructor.
Qed.

(** The runs of [getOrCreateOAC], by their calls and their result. *)
Definition getOrCreateOAC_outcome (pm : PreviewManager) (t : list Event)
    (r : result string) : Prop :=
  let oacName := "OAC-" +:+ bucketName pm in
  (exists e,
     api t = [ Ev CFListOriginAccessControls (Err e) ] /\
     r = Err ("failed to list OACs: " +:+ e)) \/
  (exists before oac after,
     api t = [ Ev CFListOriginAccessControls (Ok (Some (before ++ oac :: after))) ] /\
     oac_Name oac = oacName /\
     Forall (fun other => oac_Name other <> oacName) before /\
     r = Ok (oac_Id oac)) \/
  (exists listed config answer,
     api t = [ Ev CFListOriginAccessControls (Ok listed);
               Ev (CFCreateOriginAccessControl config) answer ] /\
     (forall items, listed = Some items ->
                    Forall (fun other => oac_Name other <> oacName) items) /\
     oacc_Name config = oacName /\
     r = match answer with
         | Ok created => Ok (oac_Id created)
         | Err e => Err ("failed to create OAC: " +:+ e)
         end).

Lemma getOrCreateOAC_outcome_wp (pm : PreviewManager) :
  wp any (getOrCreateOAC_outcome pm) (getOrCreateOAC pm).
Proof.
  unfold getOrCreateOAC, getOrCreateOAC_outcome.
  exec_step. exec_step.
  match goal with
  | listed : result (option (list OriginAccessControlSummary)) |- _ =>
      destruct listed as [[items|]|e]; cbn [wp bind]
  end.
  - pose proof (getOrCreateOAC_scan_first ("OAC-" +:+ bucketName pm) items) as Hscan.
    destruct (getOrCreateOAC_scan ("OAC-" +:+ bucketName pm) items) as [oac|].
    + destruct Hscan as (before & after & -> & Hname & Hbefore).
      exec. right. left. eexists _, _, _. repeat split; eauto.
    + exec; right; right; eexists _, _, _;
        (split; [reflexivity|]); (split; [intros ? [= <-]; exact Hscan|]);
        split; reflexivity.
  - exec; right; right; eexists _, _, _;
      (split; [reflexivity|]); (split; [discriminate|]); split; reflexivity.
  - left. eexists. split; reflexivity.
Qed.

(** X6.  [getOrCreateOAC] returns the id of the first listed entity whose
    name is [OAC-] and the bucket name, without creating anything; it asks
    for a creation, under that name, only after a list without such an
    entity; a failed list creates nothing. *)
Theorem getOrCreateOAC_reuses_first_match (o : Oracle) (h : list Event)
    (pm : PreviewManager) :
  getOrCreateOAC_outcome pm
    (run o h (getOrCreateOAC pm)).1 (run o h (getOrCreateOAC pm)).2.
Proof.
  exact (wp_sound any o _ (obeys_any o) _ h (getOrCreateOAC_outcome_wp pm)).
Qed.

(** ** The distribution *)

Lemma findCloudFrontDistribution_aliases_sound (host : string)
    (aliases : list string) :
  findCloudFrontDistribution_aliases host aliases = true -> host ∈ aliases.
Proof.
  induction aliases as [|other aliases IH]; simpl; [discriminate|].
  destruct (decide (other = host)) as [->|_].
  - intros _. apply list_elem_of_here.
  - intros H. apply list_elem_of_further, IH, H.
Qed.

(** A distribution of the list that has the hostname among its aliases. *)
Definition has_alias (host : string) (items : list DistributionSummary)
    (dist : DistributionSummary) : Prop :=
  dist ∈ items /\
  exists aliases, ds_Aliases dist = Some aliases /\ host ∈ Items aliases.

(** X7.  The lookup by alias returns a non-empty id only if it is the id of a
    listed distribution that has the hostname, letter for letter, among its
    aliases; and when every listed distribution has an id, it returns a
    non-empty id as soon as one of them has that alias. *)
Theorem findCloudFrontDistribution_scan_exact (host : string)
    (items : list DistributionSummary) :
  (findCloudFrontDistribution_scan host items <> "" ->
   exists dist,
     has_alias host items dist /\
     ds_Id dist = findCloudFrontDistribution_scan host items) /\
  (Forall (fun d => ds_Id d <> "") items ->
   (exists dist, has_alias host items dist) ->
   findCloudFrontDistribution_scan host items <> "").
Proof.
  split.
  - induction items as [|dist items IH]; simpl; [contradiction|].
    destruct (ds_Aliases dist) as [aliases|] eqn:Hal.
    + destruct (findCloudFrontDistribution_aliases host (Items aliases)) eqn:Hhit.
      * intros _. exists dist. split; [|reflexivity].
        split; [apply list_elem_of_here|]. exists aliases. split; [assumption|].
        now apply findCloudFrontDistribution_aliases_sound.
      * intros Hne. destruct (IH Hne) as (d & [Hin Hd] & Hid).
        exists d. split; [|assumption]. split; [now apply list_elem_of_further|assumption].
    + intros Hne. destruct (IH Hne) as (d & [Hin Hd] & Hid).
      exists d. split; [|assumption]. split; [now apply list_elem_of_further|assumption].
  - intros Hids (dist & Hin & aliases & Hal & Hhost).
    exact (findCloudFrontDistribution_scan_found _ _ _ _ Hin Hal Hhost Hids).
Qed.

Lemma findCloudFrontDistribution_scan_exact_witness :
  exists dist,
    has_alias "pr-42-site.example.test"
      [ {| ds_Id := "E0"; ds_Aliases := None |};
        {| ds_Id := "E1DIST";
           ds_Aliases := Some {| Quantity := 1;
                                 Items := ["pr-42-site.example.test"] |} |} ] dist /\
    ds_Id dist = "E1DIST".
Proof.
  apply (proj1 (findCloudFrontDistribution_scan_exact "pr-42-site.example.test"
    [ {| ds_Id := "E0"; ds_Aliases := None |};
      {| ds_Id := "E1DIST";
         ds_Aliases := Some {| Quantity := 1;
                               Items := ["pr-42-site.example.test"] |} |} ])).
  discriminate.
Defined.

(** The runs of [getOrCreateCloudFrontDistribution], by their calls and
    their result. *)
Definition getOrCreateCloudFrontDistribution_outcome (pm : PreviewManager)
    (oacID : string) (t : list Event) (r : result string) : Prop :=
  (exists e,
     api t = [ Ev CFListDistributions (Err e) ] /\
     r = Err ("failed to list distributions: " +:+ e)) \/
  (exists items,
     api t = [ Ev CFListDistributions (Ok (Some items)) ] /\
     findCloudFrontDistribution_scan (fullDomain pm) items <> "" /\
     r = Ok (findCloudFrontDistribution_scan (fullDomain pm) items)) \/
  (exists listed now config answer,
     api t = [ Ev CFListDistributions (Ok listed); Ev TimeNowUnix now;
               Ev (CFCreateDistribution config) answer ] /\
     (forall items, listed = Some items ->
                    findCloudFrontDistribution_scan (fullDomain pm) items = "") /\
     Enabled config = true /\
     Items (Aliases config) = [fullDomain pm] /\
     map OriginAccessControlId (Items (Origins config)) = [oacID] /\
     (forall id,
        findCloudFrontDistribution_scan (fullDomain pm)
          [ {| ds_Id := id; ds_Aliases := Some (Aliases config) |} ] = id) /\
     r = match answer with
         | Ok dist => Ok (d_Id dist)
         | Err e => Err ("failed to create distribution: " +:+ e)
         end).

Lemma getOrCreateCloudFrontDistribution_outcome_wp (pm : PreviewManager)
    (oacID : string) :
  wp any (getOrCreateCloudFrontDistribution_outcome pm oacID)
    (getOrCreateCloudFrontDistribution pm oacID).
Proof.
  unfold getOrCreateCloudFrontDistribution, findCloudFrontDistribution,
    createCloudFrontDistribution, getOrCreateCloudFrontDistribution_outcome.
  exec; units; cbn [api List.filter ev_call is_Stdout negb].
  all: try (match goal with n : ?x <> ?x |- _ => now destruct n end).
  all: try (left; eexists; split; reflexivity).
  all: try (right; left; eexists; split; [reflexivity|split; [assumption|reflexivity]]).
  all: right; right; eexists _, _, _, _; (split; [reflexivity|]).
  all: (split; [first [discriminate | intros ? [= <-]; assumption]|]).
  all: cbn [Enabled Aliases Origins Items map OriginAccessControlId].
  all: repeat split.
  all: intros id; cbn; destruct (decide (fullDomain pm = fullDomain pm));
    [reflexivity|contradiction].
Qed.

(** X8.  [getOrCreateCloudFrontDistribution] creates a distribution only after
    a list in which the lookup by alias has found none; the distribution it
    asks for is enabled, has the hostname as its only alias and reads its
    origin through the access-control entity given, so that the lookup by
    alias finds it again; a failed list creates nothing. *)
Theorem getOrCreateCloudFrontDistribution_creates_once_findable (o : Oracle)
    (h : list Event) (pm : PreviewManager) (oacID : string) :
  getOrCreateCloudFrontDistribution_outcome pm oacID
    (run o h (getOrCreateCloudFrontDistribution pm oacID)).1
    (run o h (getOrCreateCloudFrontDistribution pm oacID)).2.
Proof.
  exact (wp_sound any o _ (obeys_any o) _ h
           (getOrCreateCloudFrontDistribution_outcome_wp pm oacID)).
Qed.

(** ** The DNS record of a deploy *)

(** The runs of [updateRoute53] in which both lookups succeed. *)
Definition updateRoute53_upsert (pm : PreviewManager) (distributionID : string)
    (t : list Event) (r : result unit) : Prop :=
  exists zone zones dist answer,
    let zoneID := List.last (strings_Split_slash (hz_Id zone)) "" in
    api t =
      [ Ev (R53ListHostedZonesByName (BaseDomain (cfg pm))) (Ok (zone :: zones));
        Ev (CFGetDistribution distributionID) (Ok dist);
        Ev (R53ChangeResourceRecordSets zoneID ChangeActionUpsert
              {| rr_Name := fullDomain pm;
                 rr_Type := RRTypeCname;
                 rr_TTL := Some 300;
                 rr_ResourceRecords := [d_DomainName dist] |}) answer ] /\
    r = match answer with
        | Ok _ => Ok tt
        | Err e => Err ("failed to update DNS record: " +:+ e)
        end.

Lemma updateRoute53_upsert_wp (pm : PreviewManager) (distributionID : string) :
  wp any
    (fun t r =>
       (existsb is_R53Change (calls t) = true \/ r = Ok tt ->
        updateRoute53_upsert pm distributionID t r) /\
       (existsb is_R53Change (calls t) = false -> exists e, r = Err e))
    (updateRoute53 pm distributionID).
Proof.
  unfold updateRoute53, getHostedZoneID, updateRoute53_upsert.
  exec; units; cbn [api List.filter ev_call is_Stdout negb]; split.
  all: try (intros [?|?]; discriminate).
  all: try (intros _; eexists; reflexivity).
  all: try discriminate.
  all: intros _; eexists _, _, _, _; split; reflexivity.
Qed.

(** X9.  [updateRoute53] changes DNS in one way only: after the zone has been
    found and the distribution read, it upserts one CNAME record of the
    hostname, with a TTL of 300 seconds, whose value is the domain name of
    that distribution.  It returns success only if that change was
    accepted, and an error whenever it submits no change. *)
Theorem updateRoute53_upserts_one_cname (o : Oracle) (h : list Event)
    (pm : PreviewManager) (distributionID : string) :
  let t := (run o h (updateRoute53 pm distributionID)).1 in
  let r := (run o h (updateRoute53 pm distributionID)).2 in
  (existsb is_R53Change (calls t) = true \/ r = Ok tt ->
   updateRoute53_upsert pm distributionID t r) /\
  (existsb is_R53Change (calls t) = false -> exists e, r = Err e).
Proof.
  exact (wp_sound any o _ (obeys_any o) _ h (updateRoute53_upsert_wp pm distributionID)).
Qed.

Lemma updateRoute53_upserts_one_cname_witness :
  updateRoute53_upsert pm42 "E1DIST"
    (run deployed_account [] (updateRoute53 pm42 "E1DIST")).1
    (run deployed_account [] (updateRoute53 pm42 "E1DIST")).2.
Proof.
  apply (proj1 (updateRoute53_upserts_one_cname deployed_account [] pm42 "E1DIST")).
  left. reflexivity.
Defined.

(** ** Teardown *)

Lemma deleteCloudFrontDistribution_success_wp (pm : PreviewManager) (Id : string) :
  wp any
    (fun t r =>
       r = Ok tt ->
       exists before token,
         api t = before ++ [ Ev (CFDeleteDistribution Id token) (Ok tt) ] /\
         existsb is_CFDeleteDistribution (calls before) = false)
    (deleteCloudFrontDistribution pm Id).
Proof.
  unfold deleteCloudFrontDistribution.
  exec; units; cbn [api List.filter ev_call is_Stdout negb]; try discriminate.
  all: intros _.
  - eexists [_; _; _; _], _. split; reflexivity.
  - eexists [_; _], _. split; reflexivity.
Qed.

(** X10.  The teardown of a distribution returns success only if its last
    call is the one delete call of the run and the provider has accepted
    it. *)
Theorem deleteCloudFrontDistribution_success_means_deleted (o : Oracle)
    (h : list Event) (pm : PreviewManager) (Id : string) :
  (run o h (deleteCloudFrontDistribution pm Id)).2 = Ok tt ->
  exists before token,
    api (run o h (deleteCloudFrontDistribution pm Id)).1
      = before ++ [ Ev (CFDeleteDistribution Id token) (Ok tt) ] /\
    existsb is_CFDeleteDistribution (calls before) = false.
Proof.
  exact (wp_sound any o _ (obeys_any o) _ h
           (deleteCloudFrontDistribution_success_wp pm Id)).
Qed.

Lemma deleteCloudFrontDistribution_success_means_deleted_witness :
  exists before token,
    api (run empty_account [] (deleteCloudFrontDistribution pm42 "E1DIST")).1
      = before ++ [ Ev (CFDeleteDistribution "E1DIST" token) (Ok tt) ] /\
    existsb is_CFDeleteDistribution (calls before) = false.
Proof.
  apply (deleteCloudFrontDistribution_success_means_deleted empty_account []
           pm42 "E1DIST").
  reflexivity.
Defined.

(** ** The notifier *)

(** The runs of a notifier: without a client no call at all and success;
    with a client one comment on the pull request of the environment, whose
    text mentions [mention]. *)
Definition notifier_outcome (pm : PreviewManager) (mention : string)
    (t : list Event) (r : result unit) : Prop :=
  match githubClient pm with
  | None => api t = [] /\ r = Ok tt
  | Some _ =>
      exists before after answer,
        api t = [ Ev (GitHubCreateComment (RepoOwner (cfg pm)) (RepoName (cfg pm))
                        (PRNumber (cfg pm)) (before +:+ mention +:+ after))
                    answer ] /\
        r = match answer with
            | Ok _ => Ok tt
            | Err e => Err ("failed to create comment: " +:+ e)
            end
  end.

Lemma postGitHubComment_outcome_wp (pm : PreviewManager) :
  wp any (notifier_outcome pm ("https://" +:+ fullDomain pm)) (postGitHubComment pm).
Proof.
  unfold postGitHubComment, notifier_outcome.
  destruct (githubClient pm); exec; units;
    cbn [api List.filter ev_call is_Stdout negb]; [| |split; reflexivity].
  all: exists ("## Preview Environment Deployed Successfully! 🚀" +:+ nl +:+ nl
               +:+ "Your preview environment is now available at:" +:+ nl
               +:+ "**"),
              ("**" +:+ nl +:+ nl
               +:+ "Note: Initial deployment may take 3-5 minutes for CloudFront to propagate globally.").
  all: eexists; rewrite !append_assoc'; split; reflexivity.
Qed.

Lemma postCleanupGitHubComment_outcome_wp (pm : PreviewManager) :
  wp any (notifier_outcome pm ("PR #" +:+ fmt_d (PRNumber (cfg pm))))
    (postCleanupGitHubComment pm).
Proof.
  unfold postCleanupGitHubComment, notifier_outcome.
  destruct (githubClient pm); exec; units;
    cbn [api List.filter ev_call is_Stdout negb]; [| |split; reflexivity].
  all: exists ("## Preview Environment Cleanup Complete ðŸ§¹" +:+ nl +:+ nl
               +:+ "The preview environment for "),
              (" has been successfully cleaned up." +:+ nl +:+ nl
               +:+ "All resources have been removed:" +:+ nl
               +:+ "- CloudFront distribution" +:+ nl
               +:+ "- Route53 DNS records" +:+ nl
               +:+ "- S3 bucket and contents").
  all: eexists; rewrite !append_assoc'; split; reflexivity.
Qed.

(** X11.  Without a GitHub client the two notifiers call nothing and return
    success.  With a client each posts one comment, on the pull request of
    the environment in the configured repository; the comment of a deploy
    carries the URL of the preview, the comment of a cleanup the number of
    the pull request; the notifier fails exactly when the post does. *)
Theorem notifiers_post_one_comment (o : Oracle) (h : list Event)
    (pm : PreviewManager) :
  notifier_outcome pm ("https://" +:+ fullDomain pm)
    (run o h (postGitHubComment pm)).1 (run o h (postGitHubComment pm)).2 /\
  notifier_outcome pm ("PR #" +:+ fmt_d (PRNumber (cfg pm)))
    (run o h (postCleanupGitHubComment pm)).1
    (run o h (postCleanupGitHubComment pm)).2.
Proof.
  split.
  - exact (wp_sound any o _ (obeys_any o) _ h (postGitHubComment_outcome_wp pm)).
  - exact (wp_sound any o _ (obeys_any o) _ h (postCleanupGitHubComment_outcome_wp pm)).
Qed.

(** ** The upload of the content *)

(** The calls of a walk in which every entry was handled without error:
    nothing for a directory, and for a file the relative path, the bytes
    and the upload of these bytes under that path. *)
Inductive uploaded (pm : PreviewManager) : list WalkEntry -> list Event -> Prop :=
| uploaded_nil : uploaded pm [] []
| uploaded_dir (e : WalkEntry) (rest : list WalkEntry) (t : list Event) :
    we_err e = None -> we_IsDir e = true ->
    uploaded pm rest t -> uploaded pm (e :: rest) t
| uploaded_file (e : WalkEntry) (rest : list WalkEntry) (t : list Event)
    (key data : string) :
    we_err e = None -> we_IsDir e = false ->
    uploaded pm rest t ->
    uploaded pm (e :: rest)
      (Ev (FilepathRel (SourcePath (cfg pm)) (we_path e)) (Ok key)
       :: Ev (OsReadFile (we_path e)) (Ok data)
       :: Ev (S3PutObject (bucketName pm) key data (getContentType (we_path e)))
            (Ok tt)
       :: t).

(** The regular files among the entries of a walk. *)
Definition files (entries : list WalkEntry) : list WalkEntry :=
  List.filter (fun e => negb (we_IsDir e)) entries.

Lemma wrap_int_small (n : Z) : - 2 ^ 63 <= n < 2 ^ 63 -> wrap_int n = n.
Proof. intros Hn. unfold wrap_int. rewrite Z.mod_small; lia. Qed.

Lemma files_length (entries : list WalkEntry) :
  (length (files entries) <= length entries)%nat.
Proof. apply List.filter_length_le. Qed.

Lemma syncFilesToS3_walk_uploaded (pm : PreviewManager)
    (entries : list WalkEntry) :
  forall n : Z,
  wp any
    (fun t r =>
       forall count, r = Ok count ->
       uploaded pm entries (api t) /\
       (0 <= n -> n + Z.of_nat (length entries) < 2 ^ 63 ->
        count = n + Z.of_nat (length (files entries))))
    (syncFilesToS3_walk pm entries n).
Proof.
  induction entries as [|e rest IH]; intros n.
  - cbn. intros count [= <-]. split; [constructor|lia].
  - cbn [syncFilesToS3_walk]. unfold syncFilesToS3_visit.
    exec; units; try discriminate.
    + eapply wp_mono; [|apply IH]. cbv beta.
      intros t r Hrest count Hr. destruct (Hrest count Hr) as [Hup Hcount].
      split.
      * now apply uploaded_dir.
      * unfold files. cbn [List.filter length].
        match goal with H : we_IsDir e = true |- _ => rewrite H end.
        cbn [negb]. intros Hn Hlen. apply Hcount; lia.
    + eapply wp_mono; [|apply IH]. cbv beta.
      intros t r Hrest count Hr. destruct (Hrest count Hr) as [Hup Hcount].
      split.
      * cbn [api List.filter ev_call is_Stdout negb].
        now apply uploaded_file.
      * unfold files. cbn [List.filter length].
        match goal with H : we_IsDir e = false |- _ => rewrite H end.
        cbn [negb length]. intros Hn Hlen.
        pose proof (files_length rest).
        rewrite wrap_int_small in Hcount by lia. unfold files in *.
        rewrite Hcount; lia.
Qed.

Lemma syncFilesToS3_uploaded_wp (pm : PreviewManager) :
  wp any
    (fun t r =>
       r = Ok tt ->
       exists entries puts,
         api t = Ev (FilepathWalk (SourcePath (cfg pm))) entries :: puts /\
         uploaded pm entries puts /\
         (Z.of_nat (length entries) < 2 ^ 63 ->
          List.last (calls t) TimeNowUnix =
            Stdout ("  ✓ Uploaded "
                    +:+ fmt_d (Z.of_nat (length (files entries)))
                    +:+ " files" +:+ nl)))
    (syncFilesToS3 pm).
Proof.
  unfold syncFilesToS3. exec_step. exec_step.
  match goal with entries : list WalkEntry |- _ =>
    eapply wp_seq; [apply (syncFilesToS3_walk_uploaded pm entries 0)|]
  end.
  cbv beta. intros t1 [count|e] Hwalk; exec; [|discriminate].
  intros _. destruct (Hwalk count eq_refl) as [Hup Hcount].
  eexists _, _. cbn [api List.filter ev_call is_Stdout negb].
  split; [reflexivity|]. split.
  - unfold api in *. rewrite List.filter_app. cbn. now rewrite app_nil_r.
  - intros Hlen. rewrite Hcount by lia.
    unfold calls. cbn [map]. rewrite map_app. cbn [map ev_call].
    rewrite !app_comm_cons, List.last_last. reflexivity.
Qed.

(** X12.  When [syncFilesToS3] succeeds, the walk has met no error, and after
    the walk the run has done, for each regular file in the order of the
    walk and for nothing else, one upload into the bucket of the
    environment: under the relative path that [filepath.Rel] gave, of the
    bytes read from the file, with the content type of its name.  For a
    walk of fewer than 2^63 entries its last line reports the number of
    these files. *)
Theorem syncFilesToS3_uploads_each_file_once (o : Oracle) (h : list Event)
    (pm : PreviewManager) :
  (run o h (syncFilesToS3 pm)).2 = Ok tt ->
  exists entries puts,
    api (run o h (syncFilesToS3 pm)).1
      = Ev (FilepathWalk (SourcePath (cfg pm))) entries :: puts /\
    uploaded pm entries puts /\
    (Z.of_nat (length entries) < 2 ^ 63 ->
     List.last (calls (run o h (syncFilesToS3 pm)).1) TimeNowUnix =
       Stdout ("  ✓ Uploaded " +:+ fmt_d (Z.of_nat (length (files entries)))
               +:+ " files" +:+ nl)).
Proof.
  exact (wp_sound any o _ (obeys_any o) _ h (syncFilesToS3_uploaded_wp pm)).
Qed.

(** ** What a run may touch *)

(** A trace all of whose calls are of the kind [ok]. *)
Definition within (ok : Call -> bool) (t : list Event) : Prop :=
  forallb ok (calls t) = true.

Lemma within_cons (ok : Call -> bool) (c : Call) (r : Resp c) (t : list Event) :
  ok c = true -> within ok t -> within ok (Ev c r :: t).
Proof. unfold within. simpl. intros -> ->. reflexivity. Qed.

Lemma within_app (ok : Call -> bool) (t1 t2 : list Event) :
  within ok t1 -> within ok t2 -> within ok (t1 ++ t2).
Proof.
  unfold within, calls. rewrite map_app, forallb_app. intros -> ->. reflexivity.
Qed.

Ltac holds :=
  repeat match goal with
         | |- (_ && _)%bool = true => apply andb_true_intro; split
         | |- bool_decide _ = true =>
             apply bool_decide_eq_true_2; first [reflexivity|assumption]
         | |- negb _ = true => apply negb_true_iff
         | |- _ => reflexivity
         end.

Ltac fits ok :=
  repeat first [ apply within_cons; [cbn [ok]; holds|]
               | apply within_app; [assumption|] ];
  first [ assumption | reflexivity ].

(** The calls of a deploy: its log, its own bucket, the files under its
    source directory, the shared lists of CloudFront, the zone of its base
    domain, an upsert of the record of its hostname and a comment on its
    pull request. *)
Definition Deploy_may_call (pm : PreviewManager) (c : Call) : bool :=
  match c with
  | Stdout _ | TimeNowUnix | OsReadFile _ => true
  | FilepathWalk root => bool_decide (root = SourcePath (cfg pm))
  | FilepathRel basepath _ => bool_decide (basepath = SourcePath (cfg pm))
  | S3HeadBucket Bucket | S3CreateBucket Bucket _ | S3PutObject Bucket _ _ _
  | S3PutBucketPolicy Bucket _ => bool_decide (Bucket = bucketName pm)
  | CFListOriginAccessControls | CFListDistributions | CFGetDistribution _
  | CFCreateInvalidation _ _ _ => true
  | CFCreateOriginAccessControl config =>
      bool_decide (oacc_Name config = "OAC-" +:+ bucketName pm)
  | CFCreateDistribution config =>
      bool_decide (Items (Aliases config) = [fullDomain pm])
  | R53ListHostedZonesByName DNSName => bool_decide (DNSName = BaseDomain (cfg pm))
  | R53ChangeResourceRecordSets _ ChangeActionUpsert recordSet =>
      bool_decide (rr_Name recordSet = fullDomain pm)
  | GitHubCreateComment owner repo number _ =>
      bool_decide (owner = RepoOwner (cfg pm))
      && bool_decide (repo = RepoName (cfg pm))
      && bool_decide (number = PRNumber (cfg pm))
  | _ => false
  end.

Section DeployFootprint.

Variable pm : PreviewManager.

Let inside : list Event -> Prop := within (Deploy_may_call pm).

Lemma createS3Bucket_within :
  wp any (fun t _ => inside t) (createS3Bucket pm).
Proof. unfold createS3Bucket. exec; fits Deploy_may_call. Qed.

Lemma syncFilesToS3_walk_within (entries : list WalkEntry) :
  forall n, wp any (fun t _ => inside t) (syncFilesToS3_walk pm entries n).
Proof.
  induction entries as [|e rest IH]; intros n; [reflexivity|].
  cbn [syncFilesToS3_walk]. unfold syncFilesToS3_visit. exec.
  all: try (eapply wp_mono; [|apply IH]; cbv beta; intros t _ Ht).
  all: fits Deploy_may_call.
Qed.

Lemma syncFilesToS3_within :
  wp any (fun t _ => inside t) (syncFilesToS3 pm).
Proof.
  unfold syncFilesToS3. exec_step. exec_step.
  eapply wp_seq; [apply syncFilesToS3_walk_within|].
  cbv beta. intros t1 walked Ht1. exec; fits Deploy_may_call.
Qed.

Lemma getOrCreateOAC_within :
  wp any (fun t _ => inside t) (getOrCreateOAC pm).
Proof. unfold getOrCreateOAC. exec; fits Deploy_may_call. Qed.

Lemma getOrCreateCloudFrontDistribution_within (oacID : string) :
  wp any (fun t _ => inside t) (getOrCreateCloudFrontDistribution pm oacID).
Proof.
  unfold getOrCreateCloudFrontDistribution, findCloudFrontDistribution,
    createCloudFrontDistribution.
  exec; fits Deploy_may_call.
Qed.

Lemma setBucketPolicyForOAC_within (distributionID : string) :
  wp any (fun t _ => inside t) (setBucketPolicyForOAC pm distributionID).
Proof. unfold setBucketPolicyForOAC. exec; fits Deploy_may_call. Qed.

Lemma invalidateCloudFrontCache_within (distributionID : string) :
  wp any (fun t _ => inside t) (invalidateCloudFrontCache pm distributionID).
Proof. unfold invalidateCloudFrontCache. exec; fits Deploy_may_call. Qed.

Lemma updateRoute53_within (distributionID : string) :
  wp any (fun t _ => inside t) (updateRoute53 pm distributionID).
Proof. unfold updateRoute53, getHostedZoneID. exec; fits Deploy_may_call. Qed.

Lemma postGitHubComment_within :
  wp any (fun t _ => inside t) (postGitHubComment pm).
Proof. unfold postGitHubComment. exec; fits Deploy_may_call. Qed.

Lemma Deploy_within : wp any (fun t _ => inside t) (Deploy pm).
Proof.
  unfold Deploy. exec_step.
  eapply wp_seq; [apply createS3Bucket_within|].
  cbv beta. intros t1 [[]|e] H1; [|cbn; fits Deploy_may_call].
  eapply wp_seq; [apply syncFilesToS3_within|].
  cbv beta. intros t2 [[]|e] H2; [|cbn; fits Deploy_may_call].
  eapply wp_seq; [apply getOrCreateOAC_within|].
  cbv beta. intros t3 [oacID|e] H3; [|cbn; fits Deploy_may_call].
  eapply wp_seq; [apply getOrCreateCloudFrontDistribution_within|].
  cbv beta. intros t4 [distributionID|e] H4; [|cbn; fits Deploy_may_call].
  eapply wp_seq; [apply setBucketPolicyForOAC_within|].
  cbv beta. intros t5 [[]|e] H5; [|cbn; fits Deploy_may_call].
  eapply wp_seq; [apply invalidateCloudFrontCache_within|].
  cbv beta. intros t6 [[]|e] H6; [|cbn; fits Deploy_may_call].
  eapply wp_seq; [apply updateRoute53_within|].
  cbv beta. intros t7 [[]|e] H7; [|cbn; fits Deploy_may_call].
  eapply wp_seq; [apply postGitHubComment_within|].
  cbv beta. intros t8 [[]|e] H8; exec; fits Deploy_may_call.
Qed.

End DeployFootprint.

(** X13.  A deploy stays within its environment.  Every S3 call of every run
    names the bucket of the environment; DNS is changed only by an upsert of
    the record of its hostname; an entity or a distribution is created only
    under the derived name or alias; comments go to its pull request; and
    the run lists no objects, deletes nothing and updates or disables no
    distribution. *)
Theorem Deploy_stays_within_its_environment (o : Oracle) (h : list Event)
    (pm : PreviewManager) :
  forallb (Deploy_may_call pm) (calls (run o h (Deploy pm)).1) = true.
Proof. exact (wp_sound any o _ (obeys_any o) _ h (Deploy_within pm)). Qed.

(** The calls of a cleanup: its log, the list, the configuration, the
    disabling and the deletion of distributions, the zone of its base
    domain, the records at its hostname, the deletion of a record of its
    hostname, its own bucket, and a comment on its pull request. *)
Definition Cleanup_may_call (pm : PreviewManager) (c : Call) : bool :=
  match c with
  | Stdout _ => true
  | CFListDistributions | CFGetDistributionConfig _
  | CFWaitDistributionDeployed _ _ | CFDeleteDistribution _ _ => true
  | CFUpdateDistribution _ config _ => negb (Enabled config)
  | R53ListHostedZonesByName DNSName => bool_decide (DNSName = BaseDomain (cfg pm))
  | R53ListResourceRecordSets _ StartRecordName RRTypeCname _ =>
      bool_decide (StartRecordName = fullDomain pm)
  | R53ChangeResourceRecordSets _ ChangeActionDelete recordSet =>
      bool_decide (rr_Name recordSet = fullDomain pm +:+ ".")
  | S3HeadBucket Bucket | S3ListObjectsV2 Bucket _ | S3DeleteBucket Bucket =>
      bool_decide (Bucket = bucketName pm)
  | S3DeleteObjects Bucket Objects =>
      bool_decide (Bucket = bucketName pm)
      && match Objects with [] => false | _ :: _ => true end
  | GitHubCreateComment owner repo number _ =>
      bool_decide (owner = RepoOwner (cfg pm))
      && bool_decide (repo = RepoName (cfg pm))
      && bool_decide (number = PRNumber (cfg pm))
  | _ => false
  end.

Section CleanupFootprint.

Variable pm : PreviewManager.

Let inside : list Event -> Prop := within (Cleanup_may_call pm).

Lemma findCloudFrontDistribution_within :
  wp any (fun t _ => inside t) (findCloudFrontDistribution pm).
Proof. unfold findCloudFrontDistribution. exec; fits Cleanup_may_call. Qed.

Lemma deleteCloudFrontDistribution_within (Id : string) :
  wp any (fun t _ => inside t) (deleteCloudFrontDistribution pm Id).
Proof. unfold deleteCloudFrontDistribution. exec; fits Cleanup_may_call. Qed.

Lemma deleteRoute53Record_within :
  wp any (fun t _ => inside t) (deleteRoute53Record pm).
Proof.
  unfold deleteRoute53Record, getHostedZoneID. exec; fits Cleanup_may_call.
Qed.

Lemma deleteS3Bucket_pages_within (fuel : nat) :
  forall paginator,
  wp any (fun t _ => inside t) (deleteS3Bucket_pages fuel pm paginator).
Proof.
  induction fuel as [|fuel IH]; intros paginator; cbn [deleteS3Bucket_pages];
    destruct (HasMorePages paginator); try reflexivity.
  unfold NextPage. exec.
  all: try (eapply wp_mono; [|apply IH]; cbv beta; intros t _ Ht).
  all: fits Cleanup_may_call.
Qed.

Lemma deleteS3Bucket_within (fuel : nat) :
  wp any (fun t _ => inside t) (deleteS3Bucket fuel pm).
Proof.
  unfold deleteS3Bucket. exec; try fits Cleanup_may_call.
  eapply wp_seq; [apply deleteS3Bucket_pages_within|].
  cbv beta. intros t1 emptied Ht1. exec; fits Cleanup_may_call.
Qed.

Lemma postCleanupGitHubComment_within :
  wp any (fun t _ => inside t) (postCleanupGitHubComment pm).
Proof. unfold postCleanupGitHubComment. exec; fits Cleanup_may_call. Qed.

Lemma Cleanup_within (fuel : nat) :
  wp any (fun t _ => inside t) (Cleanup fuel pm).
Proof.
  unfold Cleanup. exec_step.
  eapply wp_seq; [apply findCloudFrontDistribution_within|].
  cbv beta. intros t1 [distributionID|e] H1; [|cbn; fits Cleanup_may_call].
  eapply (wp_seq _ _ _ (fun t _ => inside t)).
  { destruct (decide (distributionID = "")).
    - exec. fits Cleanup_may_call.
    - apply deleteCloudFrontDistribution_within. }
  cbv beta. intros t2 [[]|e] H2; [|cbn; fits Cleanup_may_call].
  eapply wp_seq; [apply deleteRoute53Record_within|].
  cbv beta. intros t3 record H3.
  eapply (wp_seq _ _ _ (fun t _ => inside t));
    [destruct record; exec; fits Cleanup_may_call|].
  cbv beta. intros t4 _ H4.
  eapply wp_seq; [apply deleteS3Bucket_within|].
  cbv beta. intros t5 [[[]|e]|] H5; try (cbn; fits Cleanup_may_call).
  eapply wp_seq; [apply postCleanupGitHubComment_within|].
  cbv beta. intros t6 comment H6.
  destruct comment; exec; fits Cleanup_may_call.
Qed.

End CleanupFootprint.

(** X14.  A cleanup stays within its environment and only takes away.  Every
    S3 call of every run names the bucket of the environment, and no
    deletion of objects is asked for an empty list of objects; DNS is
    changed only by the deletion of a record named as the hostname and a
    dot; a distribution is updated only to disable it; comments go to its
    pull request; and the run creates, uploads and invalidates nothing. *)
Theorem Cleanup_stays_within_its_environment (o : Oracle) (h : list Event)
    (fuel : nat) (pm : PreviewManager) :
  forallb (Cleanup_may_call pm) (calls (run o h (Cleanup fuel pm)).1) = true.
Proof. exact (wp_sound any o _ (obeys_any o) _ h (Cleanup_within pm fuel)). Qed.

(** ** Emptying the bucket *)

(** A page after which the paginator has no more pages. *)
Definition ends_listing (page : ListObjectsV2Output) : Prop :=
  IsTruncated page <> Some true \/
  NextContinuationToken page = None \/
  NextContinuationToken page = Some "".

(** Every listing of objects fits one page. *)
Definition lists_one_page (c : Call) : Resp c -> Prop :=
  match c as c' return Resp c' -> Prop with
  | S3ListObjectsV2 _ _ => fun r => forall page, r = Ok page -> ends_listing page
  | _ => fun _ => True
  end.

Lemma deleteS3Bucket_pages_done (fuel : nat) (pm : PreviewManager)
    (paginator : ListObjectsV2Paginator) :
  HasMorePages paginator = false ->
  deleteS3Bucket_pages fuel pm paginator = Ret (Some (Ok tt)).
Proof. intros H. destruct fuel; simpl; now rewrite H. Qed.

Lemma ends_listing_no_more_pages (page : ListObjectsV2Output) :
  ends_listing page ->
  HasMorePages
    {| firstPage := false;
       nextToken := match IsTruncated page with
                    | Some true => NextContinuationToken page
                    | _ => None
                    end |} = false.
Proof.
  unfold ends_listing, HasMorePages. simpl.
  destruct (IsTruncated page) as [[]|]; try reflexivity.
  intros [H|[->| ->]]; [contradiction|reflexivity|reflexivity].
Qed.

(** The runs of [deleteS3Bucket] on a listing of one page. *)
Definition deleteS3Bucket_one_page (pm : PreviewManager) (t : list Event)
    (r : option (result unit)) : Prop :=
  let bucket := bucketName pm in
  let head := Ev (S3HeadBucket bucket) (Ok tt) in
  (exists e, api t = [ Ev (S3HeadBucket bucket) (Err e) ] /\ r = Some (Ok tt)) \/
  (exists e,
     api t = [ head; Ev (S3ListObjectsV2 bucket None) (Err e) ] /\
     r = Some (Err ("failed to list objects: " +:+ e))) \/
  (exists page answer,
     Contents page = [] /\
     api t = [ head; Ev (S3ListObjectsV2 bucket None) (Ok page);
               Ev (S3DeleteBucket bucket) answer ] /\
     r = Some match answer with
              | Ok _ => Ok tt
              | Err e => Err ("failed to delete bucket: " +:+ e)
              end) \/
  (exists page e,
     Contents page <> [] /\
     api t = [ head; Ev (S3ListObjectsV2 bucket None) (Ok page);
               Ev (S3DeleteObjects bucket (Contents page)) (Err e) ] /\
     r = Some (Err ("failed to delete objects: " +:+ e))) \/
  (exists page answer,
     Contents page <> [] /\
     api t = [ head; Ev (S3ListObjectsV2 bucket None) (Ok page);
               Ev (S3DeleteObjects bucket (Contents page)) (Ok tt);
               Ev (S3DeleteBucket bucket) answer ] /\
     r = Some match answer with
              | Ok _ => Ok tt
              | Err e => Err ("failed to delete bucket: " +:+ e)
              end).

Lemma deleteS3Bucket_one_page_wp (fuel : nat) (pm : PreviewManager) :
  wp lists_one_page (deleteS3Bucket_one_page pm) (deleteS3Bucket (S fuel) pm).
Proof.
  unfold deleteS3Bucket, deleteS3Bucket_one_page.
  cbn [deleteS3Bucket_pages HasMorePages NewListObjectsV2Paginator firstPage
       orb nextToken].
  unfold NextPage.
  cbn [wp bind call Println Printf]. intros [] _ head _. cbn in head.
  destruct head as [[]|e]; cbn [wp bind call Println Printf].
  2:{ intros [] _. left. eexists. split; reflexivity. }
  intros [] _ listed Hlisted. cbn in listed, Hlisted.
  destruct listed as [page|e]; cbn [wp bind call Println Printf].
  2:{ right. left. eexists. split; reflexivity. }
  pose proof (ends_listing_no_more_pages page (Hlisted page eq_refl)) as Hend.
  destruct (Contents page) as [|key keys] eqn:Hkeys; cbn [wp bind].
  - rewrite deleteS3Bucket_pages_done by exact Hend. cbn [wp bind].
    intros answer _. cbn in answer.
    destruct answer as [[]|e]; cbn [wp bind call Println Printf]; [intros [] _|];
      right; right; left; eexists page, _;
      (split; [assumption|]); split; reflexivity.
  - intros deleted _. cbn in deleted.
    destruct deleted as [[]|e]; cbn [wp bind call Println Printf].
    + rewrite deleteS3Bucket_pages_done by exact Hend. cbn [wp bind].
      intros answer _. cbn in answer.
      destruct answer as [[]|e]; cbn [wp bind call Println Printf]; [intros [] _|];
        right; right; right; right; eexists page, _; rewrite Hkeys;
        (split; [discriminate|]); split; reflexivity.
    + right. right. right. left. eexists page, _. rewrite Hkeys.
      split; [discriminate|]. split; reflexivity.
Qed.

(** X15.  When the listing of the bucket fits one page, [deleteS3Bucket]
    ends for any fuel but none.  After a successful check it lists once,
    asks for the deletion of exactly the listed objects, in one call and
    only if there are any, and then for the deletion of the bucket; a
    failed list or a failed deletion of objects ends the step before the
    bucket is deleted. *)
Theorem deleteS3Bucket_empties_one_page (o : Oracle) (h : list Event)
    (fuel : nat) (pm : PreviewManager) :
  obeys o lists_one_page ->
  deleteS3Bucket_one_page pm
    (run o h (deleteS3Bucket (S fuel) pm)).1
    (run o h (deleteS3Bucket (S fuel) pm)).2.
Proof.
  intros Ho. exact (wp_sound _ o _ Ho _ h (deleteS3Bucket_one_page_wp fuel pm)).
Qed.

(** The bucket of pull request 42 with its three objects. *)
Definition bucket_with_objects : Oracle := fun h c =>
  match c as c' return Resp c' with
  | S3ListObjectsV2 _ _ =>
      Ok {| Contents := ["app.js"; "index.html"; "logo.png"];
            IsTruncated := Some false;
            NextContinuationToken := None |}
  | c' => deployed_account h c'
  end.

Lemma bucket_with_objects_one_page : obeys bucket_with_objects lists_one_page.
Proof.
  intros h c. destruct c; cbn; try exact I.
  intros page [= <-]. left. discriminate.
Qed.

Lemma deleteS3Bucket_empties_one_page_witness :
  deleteS3Bucket_one_page pm42
    (run bucket_with_objects [] (deleteS3Bucket 1 pm42)).1
    (run bucket_with_objects [] (deleteS3Bucket 1 pm42)).2.
Proof.
  exact (deleteS3Bucket_empties_one_page bucket_with_objects [] 0 pm42
           bucket_with_objects_one_page).
Defined.

(** ** The entry point *)

(** The configuration with which [main] goes on to the provider. *)
Definition valid (c : Config) (awsCfg : result unit) : Prop :=
  PRNumber c <> 0 /\ AppName c <> "" /\ BaseDomain c <> "" /\
  RepoOwner c <> "" /\ is_ok awsCfg = true.

(** X16.  [main] ends with a fatal error, before any call and any output,
    exactly when the pull-request number is zero, the application name, the
    base domain or the repository owner is empty, or the AWS configuration
    cannot be loaded; the repository name and the action are not checked. *)
Theorem main_checks_configuration_first (o : Oracle) (h : list Event)
    (c : Config) (awsCfg : result unit) (token : string) (fuel : nat) :
  (~ valid c awsCfg ->
   (run o h (main c awsCfg token fuel)).1 = [] /\
   exists message, (run o h (main c awsCfg token fuel)).2 = Some (Err message)) /\
  (valid c awsCfg -> (run o h (main c awsCfg token fuel)).1 <> []).
Proof.
  unfold valid, main. split.
  - intros Hinvalid.
    destruct (decide (PRNumber c = 0)); [simpl; eauto|].
    destruct (decide (AppName c = "")); [simpl; eauto|].
    destruct (decide (BaseDomain c = "")); [simpl; eauto|].
    destruct (decide (RepoOwner c = "")); [simpl; eauto|].
    destruct awsCfg as [[]|e]; [|simpl; eauto].
    destruct Hinvalid. repeat split; assumption.
  - intros (Hpr & Happ & Hdomain & Howner & Haws).
    destruct (decide (PRNumber c = 0)); [contradiction|].
    destruct (decide (AppName c = "")); [contradiction|].
    destruct (decide (BaseDomain c = "")); [contradiction|].
    destruct (decide (RepoOwner c = "")); [contradiction|].
    destruct awsCfg as [[]|e]; [|discriminate].
    destruct (decide (Action c = "cleanup")); rewrite run_bind.
    + unfold Cleanup at 1, Println at 1, call. cbn [bind run].
      match goal with
      | |- context [run o ?h' ?p] => destruct (run o h' p) as [t1 a]
      end.
      match goal with
      | |- context [run o ?h' ?p] => destruct (run o h' p) as [t2 b]
      end.
      discriminate.
    + unfold Deploy at 1, Println at 1, call. cbn [bind run].
      match goal with
      | |- context [run o ?h' ?p] => destruct (run o h' p) as [t1 a]
      end.
      match goal with
      | |- context [run o ?h' ?p] => destruct (run o h' p) as [t2 b]
      end.
      discriminate.
Qed.

(** The three lines after a successful deploy. *)
Definition deployed_lines (pm : PreviewManager) : list Call :=
  [ Stdout (nl +:+ "✓ Preview environment deployed successfully!" +:+ nl);
    Stdout ("URL: https://" +:+ fullDomain pm +:+ nl);
    Stdout ("Note: Initial deployment may take 3-5 minutes for CloudFront to propagate globally."
            +:+ nl) ].

(** X17.  With a valid configuration and any action other than [cleanup],
    letter for letter, [main] runs Deploy on the environment of the flags:
    it reports a failed deploy as fatal, and after a successful one it
    prints three lines, among them the URL of the preview. *)
Theorem main_deploys_unless_cleanup (o : Oracle) (h : list Event)
    (c : Config) (awsCfg : result unit) (token : string) (fuel : nat) :
  valid c awsCfg -> Action c <> "cleanup" ->
  let pm := newPreviewManager c token in
  let deploy := run o h (Deploy pm) in
  let whole := run o h (main c awsCfg token fuel) in
  match deploy.2 with
  | Err e =>
      whole.1 = deploy.1 /\ whole.2 = Some (Err ("Deployment failed: " +:+ e))
  | Ok _ =>
      calls whole.1 = calls deploy.1 ++ deployed_lines pm /\ whole.2 = Some (Ok tt)
  end.
Proof.
  intros (Hpr & Happ & Hdomain & Howner & Haws) Haction. unfold main.
  destruct (decide (PRNumber c = 0)); [contradiction|].
  destruct (decide (AppName c = "")); [contradiction|].
  destruct (decide (BaseDomain c = "")); [contradiction|].
  destruct (decide (RepoOwner c = "")); [contradiction|].
  destruct awsCfg as [[]|e]; [|discriminate].
  destruct (decide (Action c = "cleanup")); [contradiction|].
  cbv zeta. rewrite run_bind.
  destruct (run o h (Deploy (newPreviewManager c token))) as [t [[]|e]];
    cbn [fst snd run bind Printf call].
  - split; [|reflexivity]. unfold calls. rewrite map_app. reflexivity.
  - now rewrite app_nil_r.
Qed.

(** ** What the result of a cleanup means *)

(** After a successful cleanup: the check of the bucket had failed or the
    deletion of the bucket was accepted, and the list of distributions had
    none with the alias or the deletion of the one found was accepted. *)
Definition cleaned_up (pm : PreviewManager) (t : list Event) : Prop :=
  ((exists e, In (Ev (S3HeadBucket (bucketName pm)) (Err e)) t) \/
   In (Ev (S3DeleteBucket (bucketName pm)) (Ok tt)) t) /\
  exists listed,
    In (Ev CFListDistributions (Ok listed)) t /\
    (found_id pm listed = "" \/
     exists token,
       In (Ev (CFDeleteDistribution (found_id pm listed) token) (Ok tt)) t).

(** The fatal errors of a cleanup. *)
Definition fatal_for_cleanup (message : string) : Prop :=
  exists e,
    message = "failed to find distribution: " +:+ e \/
    message = "failed to delete CloudFront distribution: " +:+ e \/
    message = "failed to delete S3 bucket: " +:+ e.

Lemma wp_trivial {R : Type} (p : Prog R) : wp any (fun _ _ => True) p.
Proof. induction p as [r|c k IH]; simpl; auto. Qed.

Lemma api_In (e : Event) (t : list Event) : In e (api t) -> In e t.
Proof. unfold api. intros H. now apply List.filter_In in H. Qed.

Section CleanupResult.

Variables (fuel : nat) (pm : PreviewManager).

Lemma findCloudFrontDistribution_found :
  wp any
    (fun t r =>
       forall id, r = Ok id ->
       exists listed,
         t = [ Ev CFListDistributions (Ok listed) ] /\ id = found_id pm listed)
    (findCloudFrontDistribution pm).
Proof.
  unfold findCloudFrontDistribution. exec; intros id [= <-]; eauto.
Qed.

Lemma deleteCloudFrontDistribution_accepted (Id : string) :
  wp any
    (fun t r =>
       r = Ok tt -> exists token, In (Ev (CFDeleteDistribution Id token) (Ok tt)) t)
    (deleteCloudFrontDistribution pm Id).
Proof.
  eapply wp_mono; [|apply deleteCloudFrontDistribution_success_wp].
  cbv beta. intros t r H Hr. destruct (H Hr) as (before & token & Ht & _).
  exists token. apply api_In. rewrite Ht. apply in_or_app. right. now left.
Qed.

Lemma deleteS3Bucket_gone :
  wp any
    (fun t r =>
       r = Some (Ok tt) ->
       (exists e, In (Ev (S3HeadBucket (bucketName pm)) (Err e)) t) \/
       In (Ev (S3DeleteBucket (bucketName pm)) (Ok tt)) t)
    (deleteS3Bucket fuel pm).
Proof.
  unfold deleteS3Bucket. exec_step. exec_step. exec_step.
  - exec_step.
    eapply wp_seq; [apply wp_trivial|]. cbv beta. intros t1 emptied _.
    exec; units; try discriminate. intros _. right.
    simpl. rewrite in_app_iff. simpl. tauto.
  - exec. intros _. left. eexists. simpl. eauto.
Qed.

Lemma Cleanup_result_wp :
  wp any
    (fun t r =>
       (r = Some (Ok tt) -> cleaned_up pm t) /\
       (forall message, r = Some (Err message) -> fatal_for_cleanup message))
    (Cleanup fuel pm).
Proof.
  clear strings_Map_ToLower.
  unfold Cleanup. exec_step.
  eapply wp_seq; [apply findCloudFrontDistribution_found|].
  cbv beta. intros t1 [distributionID|e] H1; cbn [wp].
  2:{ split; [discriminate|]. intros m [= <-]. exists e. auto. }
  destruct (H1 _ eq_refl) as (listed & -> & ->). clear H1.
  eapply (wp_seq _ _ _
            (fun t r =>
               r = Ok tt ->
               found_id pm listed = "" \/
               exists token,
                 In (Ev (CFDeleteDistribution (found_id pm listed) token) (Ok tt)) t)).
  { destruct (decide (found_id pm listed = "")).
    - exec. auto.
    - eapply wp_mono; [|apply deleteCloudFrontDistribution_accepted].
      cbv beta. auto. }
  cbv beta. intros t2 [[]|e] H2; cbn [wp].
  2:{ split; [discriminate|]. intros m [= <-]. exists e. auto. }
  specialize (H2 eq_refl).
  eapply wp_seq; [apply wp_trivial|]. cbv beta. intros t3 record _.
  eapply wp_seq; [apply wp_trivial|]. cbv beta. intros t4 logged _.
  eapply wp_seq; [apply deleteS3Bucket_gone|].
  cbv beta. intros t5 [[[]|e]|] H5; cbn [wp].
  2:{ split; [discriminate|]. intros m [= <-]. exists e. auto. }
  2:{ split; discriminate. }
  specialize (H5 eq_refl).
  eapply wp_seq; [apply wp_trivial|]. cbv beta. intros t6 comment _.
  eapply wp_seq; [apply wp_trivial|]. cbv beta. intros t7 logged' _.
  cbn [wp]. split; [intros _|discriminate].
  split.
  - destruct H5 as [[e He]|Hd]; [left; exists e|right];
      simpl; rewrite !in_app_iff; tauto.
  - exists listed. split; [simpl; auto|].
    destruct H2 as [Hnone|[token Hd]]; [now left|right].
    exists token. simpl. rewrite !in_app_iff. tauto.
Qed.

End CleanupResult.

(** X18.  Cleanup returns success only if the check of the bucket had failed
    or the deletion of the bucket was accepted, and the distributions were
    listed with none under the alias or the deletion of the one found was
    accepted.  It fails only on the lookup or the teardown of the
    distribution or on the bucket: a failure of the DNS step or of the
    notifier never is its result. *)
Theorem Cleanup_result_is_earned (o : Oracle) (h : list Event) (fuel : nat)
    (pm : PreviewManager) :
  ((run o h (Cleanup fuel pm)).2 = Some (Ok tt) ->
   cleaned_up pm (run o h (Cleanup fuel pm)).1) /\
  (forall message,
     (run o h (Cleanup fuel pm)).2 = Some (Err message) ->
     fatal_for_cleanup message).
Proof. exact (wp_sound any o _ (obeys_any o) _ h (Cleanup_result_wp fuel pm)). Qed.

Lemma Cleanup_result_is_earned_witness :
  cleaned_up pm42 (run deployed_account [] (Cleanup 1 pm42)).1.
Proof.
  apply (proj1 (Cleanup_result_is_earned deployed_account [] 1 pm42)).
  reflexivity.
Defined.

(** ** What the result of a deploy means *)

(** After a successful deploy: the policy of the bucket was written for an
    ARN, the cache of a distribution was invalidated for every path, and the
    record of the hostname points to a domain name; all three calls were
    accepted. *)
Definition deployed_ok (pm : PreviewManager) (t : list Event) : Prop :=
  exists distributionID arn reference zoneID target,
    In (Ev (S3PutBucketPolicy (bucketName pm) (bucketPolicy (bucketName pm) arn))
          (Ok tt)) t /\
    In (Ev (CFCreateInvalidation distributionID reference
              {| Quantity := 1; Items := ["/*"] |}) (Ok tt)) t /\
    In (Ev (R53ChangeResourceRecordSets zoneID ChangeActionUpsert
              {| rr_Name := fullDomain pm;
                 rr_Type := RRTypeCname;
                 rr_TTL := Some 300;
                 rr_ResourceRecords := [target] |}) (Ok tt)) t.

(** The fatal errors of a deploy. *)
Definition fatal_for_deploy (message : string) : Prop :=
  exists e,
    In message
      [ "failed to create S3 bucket: " +:+ e;
        "failed to sync files to S3: " +:+ e;
        "failed to manage OAC: " +:+ e;
        "failed to manage CloudFront distribution: " +:+ e;
        "failed to set bucket policy: " +:+ e;
        "failed to invalidate CloudFront cache: " +:+ e;
        "failed to update Route53: " +:+ e ].

Section DeployResult.

Variable pm : PreviewManager.

Lemma setBucketPolicyForOAC_accepted (distributionID : string) :
  wp any
    (fun t r =>
       r = Ok tt ->
       exists arn,
         In (Ev (S3PutBucketPolicy (bucketName pm)
                   (bucketPolicy (bucketName pm) arn)) (Ok tt)) t)
    (setBucketPolicyForOAC pm distributionID).
Proof.
  unfold setBucketPolicyForOAC. exec; units; try discriminate.
  intros _. eexists. simpl. eauto.
Qed.

Lemma invalidateCloudFrontCache_accepted (distributionID : string) :
  wp any
    (fun t r =>
       r = Ok tt ->
       exists reference,
         In (Ev (CFCreateInvalidation distributionID reference
                   {| Quantity := 1; Items := ["/*"] |}) (Ok tt)) t)
    (invalidateCloudFrontCache pm distributionID).
Proof.
  unfold invalidateCloudFrontCache. exec; units; try discriminate.
  intros _. eexists. simpl. eauto.
Qed.

Lemma updateRoute53_accepted (distributionID : string) :
  wp any
    (fun t r =>
       r = Ok tt ->
       exists zoneID target,
         In (Ev (R53ChangeResourceRecordSets zoneID ChangeActionUpsert
                   {| rr_Name := fullDomain pm;
                      rr_Type := RRTypeCname;
                      rr_TTL := Some 300;
                      rr_ResourceRecords := [target] |}) (Ok tt)) t)
    (updateRoute53 pm distributionID).
Proof.
  unfold updateRoute53, getHostedZoneID. exec; units; try discriminate.
  intros _. eexists _, _. simpl. eauto 6.
Qed.

Lemma Deploy_result_wp :
  wp any
    (fun t r =>
       (r = Ok tt -> deployed_ok pm t) /\
       (forall message, r = Err message -> fatal_for_deploy message))
    (Deploy pm).
Proof.
  unfold Deploy, fatal_for_deploy. exec_step. units.
  eapply wp_seq; [apply wp_trivial|]. cbv beta. intros t1 [[]|e] _; cbn [wp].
  2:{ split; [discriminate|]. intros m [= <-]. exists e. simpl. auto. }
  eapply wp_seq; [apply wp_trivial|]. cbv beta. intros t2 [[]|e] _; cbn [wp].
  2:{ split; [discriminate|]. intros m [= <-]. exists e. simpl. auto. }
  eapply wp_seq; [apply wp_trivial|]. cbv beta. intros t3 [oacID|e] _; cbn [wp].
  2:{ split; [discriminate|]. intros m [= <-]. exists e. simpl. auto. }
  eapply wp_seq; [apply wp_trivial|].
  cbv beta. intros t4 [distributionID|e] _; cbn [wp].
  2:{ split; [discriminate|]. intros m [= <-]. exists e. simpl. auto. }
  eapply wp_seq; [apply setBucketPolicyForOAC_accepted|].
  cbv beta. intros t5 [[]|e] H5; cbn [wp].
  2:{ split; [discriminate|]. intros m [= <-]. exists e. simpl. auto 6. }
  eapply wp_seq; [apply invalidateCloudFrontCache_accepted|].
  cbv beta. intros t6 [[]|e] H6; cbn [wp].
  2:{ split; [discriminate|]. intros m [= <-]. exists e. simpl. auto 7. }
  eapply wp_seq; [apply updateRoute53_accepted|].
  cbv beta. intros t7 [[]|e] H7; cbn [wp].
  2:{ split; [discriminate|]. intros m [= <-]. exists e. simpl. auto 8. }
  destruct (H5 eq_refl) as [arn Hp], (H6 eq_refl) as [reference Hi],
    (H7 eq_refl) as (zoneID & target & Hd).
  eapply wp_seq; [apply wp_trivial|]. cbv beta. intros t8 comment _.
  assert (Hok : forall rest,
            deployed_ok pm
              (Ev (Stdout ("Starting deployment..." +:+ nl)) tt
               :: t1 ++ t2 ++ t3 ++ t4 ++ t5 ++ t6 ++ t7 ++ t8 ++ rest)).
  { intros rest. exists distributionID, arn, reference, zoneID, target.
    simpl. rewrite !in_app_iff. tauto. }
  destruct comment; exec; (split; [intros _; apply Hok|discriminate]).
Qed.

End DeployResult.

(** X19.  Deploy returns success only if the bucket policy was written for
    the ARN of a distribution, the cache of the distribution it went on
    with was invalidated for every path and the CNAME of the hostname was
    upserted, all three accepted by the provider.  It fails only under the
    name of one of its first seven steps: a failure of the notifier never
    is its result. *)
Theorem Deploy_result_is_earned (o : Oracle) (h : list Event)
    (pm : PreviewManager) :
  ((run o h (Deploy pm)).2 = Ok tt -> deployed_ok pm (run o h (Deploy pm)).1) /\
  (forall message,
     (run o h (Deploy pm)).2 = Err message -> fatal_for_deploy message).
Proof. exact (wp_sound any o _ (obeys_any o) _ h (Deploy_result_wp pm)). Qed.

End Program.

(** * Examples

    The runs of the examples upload files with ASCII names, which
    [strings.ToLower] lowers without the Unicode mapping: the examples are
    stated for the mapping that returns its argument. *)

Local Open Scope list_scope.

Definition unmapped : string -> string := fun s => s.

Lemma getContentType_table_witness :
  getContentType unmapped "site/Index.HTML" = "text/html" /\
  getContentType unmapped "assets/app.min.Js" = "application/javascript" /\
  getContentType unmapped "logo.PNG" = "image/png" /\
  getContentType unmapped "notes.unknownext" = "application/octet-stream" /\
  getContentType unmapped "Makefile" = "application/octet-stream" /\
  getContentType unmapped "photo.Jpeg" = "image/jpeg" /\
  getContentType unmapped "a/PHOTO.jpeg" = getContentType unmapped "photo.Jpeg".
Proof.
  split; [|split; [|split; [|split; [|split; [|split]]]]].
  - apply (proj1 (getContentType_table unmapped "site/Index.HTML")). reflexivity.
  - apply (proj1 (proj2 (getContentType_table unmapped "assets/app.min.Js"))).
    reflexivity.
  - apply (proj1 (proj2 (proj2 (getContentType_table unmapped "logo.PNG")))
             ".png" "image/png"); reflexivity.
  - apply (proj1 (proj2 (proj2 (proj2
             (getContentType_table unmapped "notes.unknownext"))))).
    + reflexivity.
    + intros key Hkey. simpl in Hkey.
      repeat (destruct Hkey as [<-|Hkey]; [reflexivity|]). destruct Hkey.
  - apply (proj1 (proj2 (proj2 (proj2 (proj2
             (getContentType_table unmapped "Makefile")))))).
    reflexivity.
  - apply (proj1 (proj2 (proj2 (proj2 (proj2 (proj2
             (getContentType_table unmapped "photo.Jpeg"))))))).
    reflexivity.
  - apply (proj2 (proj2 (proj2 (proj2 (proj2 (proj2
             (getContentType_table unmapped "photo.Jpeg"))))))).
    reflexivity.
Defined.

Lemma getContentType_ignores_case_witness :
  getContentType unmapped "assets/Logo.PNG" = getContentType unmapped "Assets/logo.png".
Proof.
  apply (getContentType_ignores_case unmapped "assets/Logo.PNG" "Assets/logo.png");
    reflexivity.
Defined.

(** C5 as stated fails: with the bucket, the access-control entity and the
    distribution of pull request 42 in place, Deploy creates the bucket
    again when the check of the bucket is refused, and a second
    distribution when the first page of the listing does not have the
    first. *)
Lemma Deploy_creates_on_deployed_environment :
  List.filter is_create
    (calls (run deployed_check_forbidden [] (Deploy unmapped pm42)).1)
    = [S3CreateBucket "pr-42-site" None] /\
  (run deployed_check_forbidden [] (Deploy unmapped pm42)).2 = Ok tt /\
  (exists config,
     List.filter is_create
       (calls (run deployed_past_first_page [] (Deploy unmapped pm42)).1)
       = [CFCreateDistribution config] /\
     Items (Aliases config) = ["pr-42-site.example.test"]) /\
  (run deployed_past_first_page [] (Deploy unmapped pm42)).2 = Ok tt.
Proof.
  vm_compute. split; [reflexivity|]. split; [reflexivity|].
  split; [|reflexivity]. eexists. split; reflexivity.
Qed.

Lemma Deploy_on_deployed_creates_nothing_witness :
  existsb is_create (calls (run deployed_account [] (Deploy unmapped pm42)).1) = false /\
  (run deployed_account [] (Deploy unmapped pm42)).2 = Ok tt.
Proof.
  destruct (Deploy_on_deployed_creates_nothing unmapped deployed_account [] pm42
              deployed_account_fully_deployed) as [Hnone Hok].
  split; [exact Hnone|exact (Hok deployed_account_accepted)].
Defined.

Lemma syncFilesToS3_uploads_each_file_once_witness :
  exists entries puts,
    api (run deployed_account [] (syncFilesToS3 unmapped pm42)).1
      = Ev (FilepathWalk (SourcePath (cfg pm42))) entries :: puts /\
    uploaded unmapped pm42 entries puts /\
    (Z.of_nat (length entries) < 2 ^ 63 ->
     List.last (calls (run deployed_account [] (syncFilesToS3 unmapped pm42)).1)
       TimeNowUnix =
       Stdout ("  ✓ Uploaded " +:+ fmt_d (Z.of_nat (length (files entries)))
               +:+ " files" +:+ nl)).
Proof.
  apply (syncFilesToS3_uploads_each_file_once unmapped deployed_account [] pm42).
  reflexivity.
Defined.

Lemma main_checks_configuration_first_witness :
  (run empty_account []
     (main unmapped
        {| PRNumber := -7; AppName := ""; Region := "us-east-1";
           BaseDomain := "example.test"; CertificateARN := "";
           SourcePath := "./dist"; Action := "deploy";
           RepoOwner := "octo"; RepoName := "" |} (Ok tt) "" 0)).1 = [] /\
  (run empty_account [] (main unmapped cfg42 (Ok tt) "" 0)).1 <> [].
Proof.
  split.
  - apply (proj1 (main_checks_configuration_first unmapped empty_account [] _
                    (Ok tt) "" 0)).
    intros (_ & Happ & _). now apply Happ.
  - apply (proj2 (main_checks_configuration_first unmapped empty_account [] cfg42
                    (Ok tt) "" 0)).
    repeat split; discriminate.
Defined.

Lemma main_deploys_unless_cleanup_witness :
  let c := {| PRNumber := 42; AppName := "site"; Region := "us-east-1";
              BaseDomain := "example.test"; CertificateARN := "";
              SourcePath := "./dist"; Action := "Cleanup";
              RepoOwner := "octo"; RepoName := "preview" |} in
  calls (run deployed_account [] (main unmapped c (Ok tt) "" 0)).1
    = calls (run deployed_account [] (Deploy unmapped (newPreviewManager c ""))).1
      ++ deployed_lines (newPreviewManager c "") /\
  (run deployed_account [] (main unmapped c (Ok tt) "" 0)).2 = Some (Ok tt).
Proof.
  intros c.
  assert (Hvalid : valid c (Ok tt)) by (repeat split; discriminate).
  assert (Haction : Action c <> "cleanup") by discriminate.
  exact (main_deploys_unless_cleanup unmapped deployed_account [] c (Ok tt) "" 0
           Hvalid Haction).
Defined.

Lemma Deploy_result_is_earned_witness :
  deployed_ok pm42 (run deployed_account [] (Deploy unmapped pm42)).1.
Proof.
  apply (proj1 (Deploy_result_is_earned unmapped deployed_account [] pm42)).
  reflexivity.
Defined.
